(** * Holdfast event catalog: domain primitives, error taxonomy,
      event service and cache-invalidation hooks

    A shallow embedding of [django-api/events] together with the parts
    of the Python runtime the code calls into ([str.replace],
    [str.strip], [int(s, 16)], [repr], [uuid.UUID], [decimal.Decimal],
    attribute assignment on exception objects and the frozen
    [dataclasses] protocol), as CPython 3.11 has them on a 64-bit
    platform with the C implementation of [decimal].

    Python strings are modelled by [string]; a character stands for the
    code point with the same number, so the model covers strings whose
    code points are below 256.  Memory is finite in one place only, the
    padding of a coefficient by [format]. *)

From Stdlib Require Import ZArith NArith List Bool Ascii String Lia.
From Stdlib Require Import DecimalString DecimalPos DecimalN QArith Qpower.
From stdpp Require Import base option gmap strings.

Local Open Scope Z_scope.

(** String concatenation computes in the proofs below. *)
#[local] Arguments String.append !_ _ / : simpl nomatch.

(** ** Python builtins *)

Module builtins.

(** The [ErrorCode] enumeration of [events/domain/errors.py]; it is
    declared here because raised objects carry it as an attribute. *)
Inductive ErrorCode := EVENT_NOT_FOUND | SESSION_NOT_FOUND | INVALID_EVENT_ID.

(** Attribute values stored in the error objects of this program. *)
Inductive attr_value :=
| VStr (s : string)
| VCode (c : ErrorCode).

(** Classes of the error hierarchy of [events/domain/errors.py]. *)
Inductive error_class :=
| DomainError_cls
| EventNotFoundError_cls
| SessionNotFoundError_cls
| InvalidEventIdError_cls.

(** An instance of one of those classes: its class, the positional
    arguments [BaseException.__new__] recorded, and its attributes. *)
Record instance := mk_instance {
  type_of : error_class;
  args : list string;
  attrs : gmap string attr_value
}.

(** Exceptions that the modelled code can raise. *)
Inductive exception :=
| NotImplementedError
| ValueError (msg : string)
| TypeError (msg : string)
| AttributeError (msg : string)
| MemoryError
| InvalidOperation
| FrozenInstanceError (msg : string)
| RaisedDomainError (obj : instance).

Inductive result (A : Type) :=
| Ok (a : A)
| Raise (e : exception).
Arguments Ok {A} a.
Arguments Raise {A} e.

Definition bind {A B} (r : result A) (k : A -> result B) : result B :=
  match r with
  | Ok a => k a
  | Raise e => Raise e
  end.

Definition is_ok {A} (r : result A) : bool :=
  match r with Ok _ => true | Raise _ => false end.

Definition code_point (c : ascii) : Z := Z.of_N (N_of_ascii c).

(** [old in s[0:]]: does [s] start with [old]? *)
Fixpoint startswith (old s : string) : bool :=
  match old, s with
  | EmptyString, _ => true
  | String a old', String b s' => Ascii.eqb a b && startswith old' s'
  | String _ _, EmptyString => false
  end.

(** [s.replace(old, new)] for a non-empty [old]: occurrences are found
    left to right and do not overlap.  [skip] counts the characters of
    a match that are still to be dropped. *)
Fixpoint replace_from (old new : string) (skip : nat) (s : string) : string :=
  match s with
  | EmptyString => EmptyString
  | String c s' =>
      match skip with
      | S k => replace_from old new k s'
      | O =>
          if startswith old s
          then new +:+ replace_from old new (Nat.pred (String.length old)) s'
          else String c (replace_from old new O s')
      end
  end.

(** [s.replace(old, new)] for the empty [old] puts [new] before every
    character and at the end. *)
Fixpoint intersperse_new (new s : string) : string :=
  match s with
  | EmptyString => new
  | String c s' => new +:+ String c (intersperse_new new s')
  end.

Definition str_replace (old new s : string) : string :=
  match old with
  | EmptyString => intersperse_new new s
  | String _ _ => replace_from old new O s
  end.

Fixpoint char_in (c : ascii) (chars : string) : bool :=
  match chars with
  | EmptyString => false
  | String d chars' => Ascii.eqb c d || char_in c chars'
  end.

Fixpoint str_lstrip (chars s : string) : string :=
  match s with
  | EmptyString => EmptyString
  | String c s' => if char_in c chars then str_lstrip chars s' else s
  end.

Fixpoint str_rstrip (chars s : string) : string :=
  match s with
  | EmptyString => EmptyString
  | String c s' =>
      match str_rstrip chars s' with
      | EmptyString => if char_in c chars then EmptyString else String c EmptyString
      | r => String c r
      end
  end.

(** [s.strip(chars)] *)
Definition str_strip (chars s : string) : string :=
  str_rstrip chars (str_lstrip chars s).

(** [len(s)] *)
Definition len (s : string) : Z := Z.of_nat (String.length s).

(** The digit table of [int()]: ['0'..'9'] are 0..9, letters of either
    case are 10..35, every other character is no digit. *)
Definition digit_value (c : ascii) : option Z :=
  let n := code_point c in
  if (48 <=? n) && (n <=? 57) then Some (n - 48)
  else if (97 <=? n) && (n <=? 122) then Some (n - 87)
  else if (65 <=? n) && (n <=? 90) then Some (n - 55)
  else None.

(** White space as [int()] sees it in a [str]: the ASCII white space of
    the C parser, and the Unicode white space above 126 that the
    conversion to ASCII turns into a blank first (below 256 these are
    U+0085 and U+00A0). *)
Definition int_space (c : ascii) : bool :=
  let n := code_point c in
  ((9 <=? n) && (n <=? 13)) || (n =? 32) || (n =? 133) || (n =? 160).

Fixpoint skip_spaces (s : string) : string :=
  match s with
  | EmptyString => EmptyString
  | String c s' => if int_space c then skip_spaces s' else s
  end.

Definition underscore : ascii := "_"%char.

(** The digit scan of [int(s, base)] for a base that is a power of
    two: digits and single underscores between them.  It returns the
    value read, the number of digits, and the unread rest; [None] is a
    syntax error (two underscores in a row, or one at the end). *)
Fixpoint scan_digits (base : Z) (s : string) (prev_underscore : bool)
    (digits : nat) (acc : Z) : option (Z * nat * string) :=
  let stop := if prev_underscore then None else Some (acc, digits, s) in
  match s with
  | EmptyString => stop
  | String c s' =>
      if Ascii.eqb c underscore then
        if prev_underscore then None
        else scan_digits base s' true digits acc
      else
        match digit_value c with
        | Some v =>
            if v <? base
            then scan_digits base s' false (S digits) (acc * base + v)
            else stop
        | None => stop
        end
  end.

(** [repr(s)] for a [str].  The text stands between single quotes,
    or between double quotes when it holds a single quote and no double
    quote.  The quote in use and the backslash are escaped, tab, line
    feed and carriage return are written [\t], [\n] and [\r], and a
    character that is not printable (below 256: the control characters,
    the no-break space and the soft hyphen) is written [\xNN]. *)
Definition single_quote : ascii := "'"%char.
Definition double_quote : ascii := ascii_of_N 34.
Definition backslash : ascii := ascii_of_N 92.

Definition printable (c : ascii) : bool :=
  let n := code_point c in
  negb ((n <? 32) || (n =? 127) || ((128 <=? n) && (n <=? 160)) || (n =? 173)).

Definition hex_char (n : N) : ascii :=
  if (n <? 10)%N then ascii_of_N (48 + n) else ascii_of_N (87 + n).

Definition escape_char (quote c : ascii) : string :=
  if Ascii.eqb c quote || Ascii.eqb c backslash then String backslash (String c EmptyString)
  else if (code_point c =? 9) then String backslash "t"
  else if (code_point c =? 10) then String backslash "n"
  else if (code_point c =? 13) then String backslash "r"
  else if printable c then String c EmptyString
  else
    String backslash
      (String "x"
         (String (hex_char (N_of_ascii c / 16))
            (String (hex_char (N_of_ascii c mod 16)) EmptyString))).

Fixpoint escape_all (quote : ascii) (s : string) : string :=
  match s with
  | EmptyString => EmptyString
  | String c s' => escape_char quote c +:+ escape_all quote s'
  end.

Definition repr (s : string) : string :=
  let quote :=
    if char_in single_quote s && negb (char_in double_quote s)
    then double_quote else single_quote in
  String quote (escape_all quote s +:+ String quote EmptyString).

(** [s[:n]] *)
Fixpoint first_chars (n : nat) (s : string) : string :=
  match n, s with
  | S n', String c s' => String c (first_chars n' s')
  | _, _ => EmptyString
  end.

(** The [ValueError] of [int(s, 16)]: its text ends with the first 200
    characters of [repr(s)]. *)
Definition invalid_literal (s : string) : exception :=
  ValueError ("invalid literal for int() with base 16: " +:+ first_chars 200 (repr s)).

Definition plus_sign : ascii := "+"%char.
Definition minus_sign : ascii := "-"%char.

(** An optional sign before the digits. *)
Definition split_sign (s : string) : Z * string :=
  match s with
  | String c r =>
      if Ascii.eqb c plus_sign then (1, r)
      else if Ascii.eqb c minus_sign then (-1, r)
      else (1, s)
  | EmptyString => (1, s)
  end.

(** An optional [0x] or [0X] before the digits of base 16, after
    which one underscore is allowed. *)
Definition skip_base_prefix (s : string) : string :=
  match s with
  | String c0 (String c1 r) =>
      if Ascii.eqb c0 "0" && (Ascii.eqb c1 "x" || Ascii.eqb c1 "X") then
        match r with
        | String c2 r' => if Ascii.eqb c2 underscore then r' else r
        | EmptyString => r
        end
      else s
  | _ => s
  end.

Definition starts_with_underscore (s : string) : bool :=
  match s with
  | String c _ => Ascii.eqb c underscore
  | EmptyString => false
  end.

(** [int(s, 16)]: white space, an optional sign, an optional base
    prefix, the digits (not starting with an underscore, at least
    one), white space, and nothing else. *)
Definition int_base16 (s : string) : result Z :=
  let '(sign, s2) := split_sign (skip_spaces s) in
  let s3 := skip_base_prefix s2 in
  if starts_with_underscore s3 then Raise (invalid_literal s)
  else
    match scan_digits 16 s3 false O 0 with
    | None => Raise (invalid_literal s)
    | Some (v, digits, rest) =>
        match digits with
        | O => Raise (invalid_literal s)
        | S _ =>
            match skip_spaces rest with
            | EmptyString => Ok (sign * v)
            | String _ _ => Raise (invalid_literal s)
            end
        end
    end.

End builtins.
Export builtins.

(** ** [uuid.UUID] *)

Module uuid.

Record UUID := mk_UUID { int : Z }.

(** [UUID(hex)], the only way the program builds one:
<<
    hex = hex.replace('urn:', '').replace('uuid:', '')
    hex = hex.strip('{}').replace('-', '')
    if len(hex) != 32: raise ValueError(...)
    int = int_(hex, 16)
    if not 0 <= int < 1<<128: raise ValueError(...)
>> *)
Definition normalise (hex : string) : string :=
  let hex := str_replace "uuid:" EmptyString (str_replace "urn:" EmptyString hex) in
  str_replace "-" EmptyString (str_strip "{}" hex).

Definition UUID_of_hex (hex : string) : result UUID :=
  let hex := normalise hex in
  if negb (len hex =? 32) then
    Raise (ValueError "badly formed hexadecimal UUID string")
  else
    bind (int_base16 hex) (fun int =>
      if negb ((0 <=? int) && (int <? Z.shiftl 1 128)) then
        Raise (ValueError "int is out of range (need a 128-bit value)")
      else Ok (mk_UUID int)).

End uuid.


(** ** [decimal.Decimal] *)

Module decimal.

(** A decimal is a sign, a coefficient and an exponent (the value
    [(-1)^sign * coeff * 10^exp]), or an infinity, or a NaN with a
    payload (zero for none). *)
Inductive Decimal :=
| Finite (sign : bool) (coeff : N) (exp : Z)
| Infinity (sign : bool)
| NaN (sign : bool) (signaling : bool) (payload : N).

Inductive rounding_mode :=
| ROUND_DOWN | ROUND_HALF_UP | ROUND_HALF_EVEN | ROUND_CEILING
| ROUND_FLOOR | ROUND_UP | ROUND_HALF_DOWN | ROUND_05UP.

(** The part of the thread's arithmetic context the program depends
    on: the rounding mode and whether [InvalidOperation] is trapped. *)
Record Context := mk_Context {
  rounding : rounding_mode;
  trap_InvalidOperation : bool
}.

Definition DefaultContext : Context :=
  {| rounding := ROUND_HALF_EVEN; trap_InvalidOperation := true |}.

(** [Decimal(n)] for a Python [int]. *)
Definition of_int (n : Z) : Decimal :=
  Finite (n <? 0) (Z.abs_N n) 0.

(** [self._cmp(Decimal(0))] for a [self] that is no NaN. *)
Definition cmp_zero (d : Decimal) : comparison :=
  match d with
  | Infinity true => Lt
  | Infinity false => Gt
  | Finite sign coeff _ =>
      if (coeff =? 0)%N then Eq else if sign then Lt else Gt
  | NaN _ _ _ => Eq
  end.

(** [self < 0]: an order comparison with a NaN signals
    [InvalidOperation], which raises when trapped and answers
    [False] otherwise. *)
Definition lt_zero (ctx : Context) (d : Decimal) : result bool :=
  match d with
  | NaN _ _ _ =>
      if trap_InvalidOperation ctx then Raise InvalidOperation else Ok false
  | _ => Ok (match cmp_zero d with Lt => true | _ => false end)
  end.

(** [str(n)] for a non-negative [int]. *)
Definition digits_of (n : N) : string :=
  NilEmpty.string_of_uint (N.to_uint n).

(** Should the quotient [q] be moved one step away from zero when the
    [k > 0] digits with value [r] are dropped from a coefficient? *)
Definition round_away (mode : rounding_mode) (sign : bool) (q r : N) (k : N) : bool :=
  let unit := (10 ^ k)%N in
  if (r =? 0)%N then false
  else
    match mode with
    | ROUND_DOWN => false
    | ROUND_UP => true
    | ROUND_HALF_UP => (unit <=? 2 * r)%N
    | ROUND_HALF_DOWN => (unit <? 2 * r)%N
    | ROUND_HALF_EVEN =>
        (unit <? 2 * r)%N || ((unit =? 2 * r)%N && N.odd q)
    | ROUND_CEILING => negb sign
    | ROUND_FLOOR => sign
    | ROUND_05UP => ((q mod 10 =? 0) || (q mod 10 =? 5))%N
    end.

(** [self._rescale(exp, rounding)]: the decimal with exponent [exp]
    nearest to [self] under the rounding mode.  [rescale_coeff] is the
    coefficient of the result for a finite [self]. *)
Definition rescale_coeff (sign : bool) (coeff : N) (e : Z) (exp : Z)
    (mode : rounding_mode) : N :=
  if (coeff =? 0)%N then 0%N
  else if exp <=? e then (coeff * 10 ^ Z.to_N (e - exp))%N
  else
    let k := Z.to_N (exp - e) in
    let q := (coeff / 10 ^ k)%N in
    let r := (coeff mod 10 ^ k)%N in
    if round_away mode sign q r k then (q + 1)%N else q.

Definition rescale (d : Decimal) (exp : Z) (mode : rounding_mode) : Decimal :=
  match d with
  | Finite sign coeff e => Finite sign (rescale_coeff sign coeff e exp mode) exp
  | _ => d
  end.

Fixpoint zeros (n : nat) : string :=
  match n with
  | O => EmptyString
  | S n' => String "0" (zeros n')
  end.

(** [s[:n]] and [s[n:]] *)
Fixpoint take (n : nat) (s : string) : string :=
  match n, s with
  | S n', String c s' => String c (take n' s')
  | _, _ => EmptyString
  end.

Fixpoint drop (n : nat) (s : string) : string :=
  match n, s with
  | S n', String _ s' => drop n' s'
  | _, _ => s
  end.

Definition sign_text (sign : bool) : string :=
  if sign then "-"%string else EmptyString.

(** The text of [format(self, ".<precision>f")]: special values print
    by name; a finite value is rescaled to [precision] fractional digits
    and printed as sign, integer part, point and fractional part. *)
Definition fixed_text (ctx : Context) (precision : nat) (d : Decimal) : string :=
  match d with
  | Infinity sign => sign_text sign +:+ "Infinity"
  | NaN sign signaling payload =>
      sign_text sign +:+ (if signaling then "sNaN" else "NaN")
        +:+ (if (payload =? 0)%N then EmptyString else digits_of payload)
  | Finite sign coeff e =>
      let coeff := rescale_coeff sign coeff e (- Z.of_nat precision) (rounding ctx) in
      let int_ := digits_of coeff in
      let n := String.length int_ in
      let '(intpart, fracpart) :=
        if (n <? precision)%nat
        then ("0"%string, zeros (precision - n) +:+ int_)
        else
          (match take (n - precision) int_ with
           | EmptyString => "0"%string
           | i => i
           end,
           drop (n - precision) int_) in
      sign_text sign +:+ intpart +:+
        (match fracpart with
         | EmptyString => EmptyString
         | _ => "." +:+ fracpart
         end)
  end.

(** The largest number of digits of a coefficient ([MAX_PREC] of the
    [decimal] module, in a 64-bit build). *)
Definition MAX_PREC : Z := 999999999999999999.

(** The digits the coefficient has once rescaled to the exponent
    [-precision], when rescaling pads it with zeros: the digits it has
    plus one zero per step of the exponent.  Zero (a zero coefficient is
    not padded) when the decimal is rounded instead. *)
Definition padded_digits (precision : nat) (d : Decimal) : Z :=
  match d with
  | Finite _ coeff e =>
      if (coeff =? 0)%N then 0
      else if - Z.of_nat precision <=? e
      then Z.of_nat (String.length (digits_of coeff)) + (e + Z.of_nat precision)
      else 0
  | _ => 0
  end.

(** [format(self, ".<precision>f")].  Rescaling refuses to pad a
    coefficient beyond [MAX_PREC + 1] digits, and [format] then raises
    [ValueError]; below that limit the padded coefficient has to be
    allocated, which is the one place where the program asks for memory
    that grows with the value of its input and not with its size:
    [memory] is the number of digits the allocator grants, and a larger
    request raises [MemoryError]. *)
Definition format_f (ctx : Context) (memory : N) (precision : nat) (d : Decimal)
    : result string :=
  if MAX_PREC + 1 <? padded_digits precision d then
    Raise (ValueError "format specification exceeds internal limits of _decimal")
  else if Z.of_N memory <? padded_digits precision d then Raise MemoryError
  else Ok (fixed_text ctx precision d).

End decimal.

(** ** [events/domain/value_objects.py] *)

Module EventId.
Record t := mk { value : uuid.UUID }.

Definition from_string (value : string) : result t :=
  bind (uuid.UUID_of_hex value) (fun u => Ok (mk u)).
End EventId.

Module SessionId.
Record t := mk { value : uuid.UUID }.

Definition from_string (value : string) : result t :=
  bind (uuid.UUID_of_hex value) (fun u => Ok (mk u)).
End SessionId.

Module TicketTypeId.
Record t := mk { value : uuid.UUID }.

Definition from_string (value : string) : result t :=
  bind (uuid.UUID_of_hex value) (fun u => Ok (mk u)).
End TicketTypeId.

Module Money.
Record t := mk { amount : decimal.Decimal }.

Definition __post_init__ (ctx : decimal.Context) (self : t) : result unit :=
  bind (decimal.lt_zero ctx (amount self)) (fun negative =>
    if negative
    then Raise (ValueError "Money amount cannot be negative")
    else Ok tt).

(** [Money(amount)]: the generated [__init__] stores the field and
    then calls [__post_init__]. *)
Definition new (ctx : decimal.Context) (amount : decimal.Decimal) : result t :=
  let self := mk amount in
  bind (__post_init__ ctx self) (fun _ => Ok self).

Definition __str__ (ctx : decimal.Context) (memory : N) (self : t) : result string :=
  decimal.format_f ctx memory 2 (amount self).
End Money.

Module Capacity.
Record t := mk { value : Z }.

Definition __post_init__ (self : t) : result unit :=
  if value self <? 0
  then Raise (ValueError "Capacity cannot be negative")
  else Ok tt.

Definition new (value : Z) : result t :=
  let self := mk value in
  bind (__post_init__ self) (fun _ => Ok self).
End Capacity.


(** ** [events/domain/errors.py] *)

Module errors.

(** [ErrorCode.<member>.value] *)
Definition ErrorCode_value (c : ErrorCode) : string :=
  match c with
  | EVENT_NOT_FOUND => "EVENT_NOT_FOUND"
  | SESSION_NOT_FOUND => "SESSION_NOT_FOUND"
  | INVALID_EVENT_ID => "INVALID_EVENT_ID"
  end.

Definition error_class_eqb (a b : error_class) : bool :=
  match a, b with
  | DomainError_cls, DomainError_cls
  | EventNotFoundError_cls, EventNotFoundError_cls
  | SessionNotFoundError_cls, SessionNotFoundError_cls
  | InvalidEventIdError_cls, InvalidEventIdError_cls => true
  | _, _ => false
  end.

(** The name of the class of a value, as error texts quote it. *)
Definition class_name (value : attr_value) : string :=
  match value with
  | VStr _ => "str"
  | VCode _ => "ErrorCode"
  end.

(** [tuple(s)] for a [str]: its characters, each a string. *)
Fixpoint characters (s : string) : list string :=
  match s with
  | EmptyString => []
  | String c s' => String c EmptyString :: characters s'
  end.

(** The plain case of storing an attribute: an entry of the instance's
    [__dict__]. *)
Definition dict_store (self : instance) (name : string) (value : attr_value)
    : instance :=
  mk_instance (type_of self) (args self) (<[name := value]> (attrs self)).

(** [object.__setattr__(self, name, value)] on an instance of these
    exception classes.  The names that [BaseException], [object] and the
    class itself define as data descriptors are not stored in
    [__dict__]: [args] is replaced by [tuple(value)], [__weakref__] is
    read-only, and the others accept neither a [str] nor an [ErrorCode].
    Every other name is stored in [__dict__]. *)
Definition object_setattr (self : instance) (name : string) (value : attr_value)
    : result instance :=
  if String.eqb name "args" then
    match value with
    | VStr s => Ok (mk_instance (type_of self) (characters s) (attrs self))
    | VCode _ => Raise (TypeError "'ErrorCode' object is not iterable")
    end
  else if String.eqb name "__cause__" then
    Raise (TypeError "exception cause must be None or derive from BaseException")
  else if String.eqb name "__context__" then
    Raise (TypeError "exception context must be None or derive from BaseException")
  else if String.eqb name "__traceback__" then
    Raise (TypeError "__traceback__ must be a traceback or None")
  else if String.eqb name "__suppress_context__" then
    Raise (TypeError "attribute value type must be bool")
  else if String.eqb name "__class__" then
    Raise (TypeError ("__class__ must be set to a class, not '"
                      +:+ class_name value +:+ "' object"))
  else if String.eqb name "__dict__" then
    Raise (TypeError ("__dict__ must be set to a dictionary, not a '"
                      +:+ class_name value +:+ "'"))
  else if String.eqb name "__weakref__" then
    Raise (AttributeError
             "attribute '__weakref__' of 'DomainError' objects is not writable")
  else Ok (dict_store self name value).

(** The names of the dataclass fields of [DomainError]. *)
Definition DomainError_fields : list string := ["code"; "message"]%string.

Definition is_field (name : string) : bool :=
  existsb (String.eqb name) DomainError_fields.

(** The [__setattr__] that [@dataclass(frozen=True)] installs on
    [DomainError], inherited by the subclasses:
<<
    if type(self) is cls or name in ('code', 'message'):
        raise FrozenInstanceError(f"cannot assign to field {name!r}")
    super(cls, self).__setattr__(name, value)
>> *)
Definition DomainError__setattr__ (self : instance) (name : string)
    (value : attr_value) : result instance :=
  if error_class_eqb (type_of self) DomainError_cls || is_field name
  then Raise (FrozenInstanceError ("cannot assign to field " +:+ repr name))
  else object_setattr self name value.

(** The [__init__] generated for the frozen dataclass: each field is
    stored with [object.__setattr__]. *)
Definition DomainError__init__ (self : instance) (code : ErrorCode)
    (message : string) : result instance :=
  bind (object_setattr self "code" (VCode code)) (fun self =>
    object_setattr self "message" (VStr message)).

(** [BaseException.__new__(cls, *args)] *)
Definition BaseException__new__ (cls : error_class) (args : list string) : instance :=
  mk_instance cls args ∅.

Definition EventNotFoundError__init__ (self : instance) (event_id : string)
    : result instance :=
  bind (DomainError__init__ self EVENT_NOT_FOUND "Event not found") (fun self =>
    DomainError__setattr__ self "event_id" (VStr event_id)).

Definition SessionNotFoundError__init__ (self : instance) (event_id : string)
    : result instance :=
  bind (DomainError__init__ self SESSION_NOT_FOUND "Sessions not found for event")
    (fun self => DomainError__setattr__ self "event_id" (VStr event_id)).

Definition InvalidEventIdError__init__ (self : instance) : result instance :=
  DomainError__init__ self INVALID_EVENT_ID "Invalid event ID format".

(** The calls [EventNotFoundError(event_id)],
    [SessionNotFoundError(event_id)] and [InvalidEventIdError()]. *)
Definition EventNotFoundError (event_id : string) : result instance :=
  EventNotFoundError__init__ (BaseException__new__ EventNotFoundError_cls [event_id]) event_id.

Definition SessionNotFoundError (event_id : string) : result instance :=
  SessionNotFoundError__init__ (BaseException__new__ SessionNotFoundError_cls [event_id]) event_id.

Definition InvalidEventIdError : result instance :=
  InvalidEventIdError__init__ (BaseException__new__ InvalidEventIdError_cls []).

(** [self.code] and [self.message] *)
Definition code (self : instance) : option ErrorCode :=
  match attrs self !! "code"%string with
  | Some (VCode c) => Some c
  | _ => None
  end.

Definition message (self : instance) : option string :=
  match attrs self !! "message"%string with
  | Some (VStr m) => Some m
  | _ => None
  end.

(** [DomainError.__str__]: [f"{self.code.value}: {self.message}"] *)
Definition DomainError__str__ (self : instance) : option string :=
  match code self, message self with
  | Some c, Some m => Some (ErrorCode_value c +:+ ": " +:+ m)
  | _, _ => None
  end.

(** The error code an exception carries, when it is a domain error. *)
Definition code_of_exception (e : exception) : option ErrorCode :=
  match e with
  | RaisedDomainError obj => code obj
  | _ => None
  end.

End errors.

(** ** [events/domain/models.py] *)

Module models.

(** A [datetime], as a count of microseconds. *)
Definition datetime := Z.

(** The fields of the three records carry a prefix ([e_], [tt_],
    [s_]) because several of them share a name in the source. *)
Record Event := mk_Event {
  e_id : EventId.t;
  e_name : string;
  e_description : string;
  e_location : string;
  e_image_url : option string;
  e_created_at : datetime;
  e_updated_at : datetime
}.

Record TicketType := mk_TicketType {
  tt_id : TicketTypeId.t;
  tt_session_id : SessionId.t;
  tt_name : string;
  tt_price : Money.t;
  tt_quantity : Capacity.t;
  tt_created_at : datetime
}.

Record Session := mk_Session {
  s_id : SessionId.t;
  s_event_id : EventId.t;
  s_starts_at : datetime;
  s_ends_at : datetime;
  s_total_capacity : Capacity.t;
  s_created_at : datetime;
  s_ticket_types : list TicketType
}.

End models.
Export models.

(** ** [events/stores/interfaces.py] and [events/stores/django_store.py] *)

(** The abstract base class [EventStore]: an implementation supplies the
    four operations. *)
Class EventStore (S : Type) := {
  list_events : S -> result (list Event);
  get_event : S -> EventId.t -> result (option Event);
  get_sessions_for_event : S -> EventId.t -> result (list Session);
  event_exists : S -> EventId.t -> result bool
}.

Inductive DjangoEventStore := mk_DjangoEventStore.

#[global] Instance DjangoEventStore_store : EventStore DjangoEventStore := {
  list_events _ := Raise NotImplementedError;
  get_event _ _ := Raise NotImplementedError;
  get_sessions_for_event _ _ := Raise NotImplementedError;
  event_exists _ _ := Raise NotImplementedError
}.

(** A store held in memory, as a test would inject one: the events in
    the order [list_events] returns them, and all sessions. *)
Record InMemoryEventStore := mk_InMemoryEventStore {
  stored_events : list Event;
  stored_sessions : list Session
}.

Definition uuid_eqb (a b : uuid.UUID) : bool := uuid.int a =? uuid.int b.

Definition EventId_eqb (a b : EventId.t) : bool :=
  uuid_eqb (EventId.value a) (EventId.value b).

#[global] Instance InMemoryEventStore_store : EventStore InMemoryEventStore := {
  list_events st := Ok (stored_events st);
  get_event st i := Ok (find (fun e => EventId_eqb (e_id e) i) (stored_events st));
  get_sessions_for_event st i :=
    Ok (filter (fun s => Is_true (EventId_eqb (s_event_id s) i)) (stored_sessions st));
  event_exists st i := Ok (existsb (fun e => EventId_eqb (e_id e) i) (stored_events st))
}.

(** ** The cache *)

(** What a cache entry holds. *)
Inductive cached :=
| CachedEvents (events : list Event)
| CachedEvent (event : Event)
| CachedSessions (sessions : list Session).

(** The process-wide cache, keyed by strings. *)
Abbreviation Cache := (gmap string cached).

(** ** [events/services/event_service.py] *)

Module EventService.
Section service.
Context {S : Type} `{EventStore S}.

Record t := mk { _store : S }.

(** A method runs against the cache and leaves a cache behind. *)
Definition method (A : Type) : Type := Cache -> result A * Cache.

Definition raise {A} (e : exception) : method A := fun cache => (Raise e, cache).

Definition list_events (self : t) : method (list Event) :=
  raise NotImplementedError.

Definition get_event (self : t) (event_id : string) : method Event :=
  raise NotImplementedError.

Definition get_sessions_for_event (self : t) (event_id : string)
    : method (list Session) :=
  raise NotImplementedError.

End service.
Arguments t S : clear implicits.
End EventService.

(** ** [events/models.py] and [events/signals.py] *)

Module signals.

(** The persisted [Event] row handed to a signal receiver. *)
Record EventRow := mk_EventRow {
  row_id : uuid.UUID;
  row_name : string;
  row_description : string;
  row_location : string;
  row_image_url : option string;
  row_created_at : datetime;
  row_updated_at : datetime
}.

Record SessionRow := mk_SessionRow {
  srow_id : uuid.UUID;
  srow_event : EventRow;
  srow_starts_at : datetime;
  srow_ends_at : datetime;
  srow_total_capacity : Z;
  srow_created_at : datetime
}.

Record TicketTypeRow := mk_TicketTypeRow {
  trow_id : uuid.UUID;
  trow_session : SessionRow;
  trow_name : string;
  trow_price : decimal.Decimal;
  trow_quantity : Z;
  trow_created_at : datetime
}.

(** The two signals the receivers are connected to. *)
Inductive signal := post_save | post_delete.

(** Each receiver's body is [pass]: it returns with the cache as it
    found it. *)
Definition invalidate_event_cache (sig : signal) (instance : EventRow)
    (cache : Cache) : Cache :=
  cache.

Definition invalidate_session_cache (sig : signal) (instance : SessionRow)
    (cache : Cache) : Cache :=
  cache.

Definition invalidate_ticket_type_cache (sig : signal) (instance : TicketTypeRow)
    (cache : Cache) : Cache :=
  cache.

End signals.



(** ** The read, update, read scenario *)

Module scenario.
Section scenario.
Context {S : Type} `{EventStore S}.

(** A read of an event, a change of the stored event followed by its
    [post_save] signal, and a second read.  [before] and [after] are the
    service over the store before and after the change; the result is
    what the two reads returned and the cache at the end. *)
Definition read_update_read (before after : EventService.t S)
    (event_id : string) (row : signals.EventRow) (cache : Cache)
    : result Event * result Event * Cache :=
  let '(first, cache1) := EventService.get_event before event_id cache in
  let cache2 := signals.invalidate_event_cache signals.post_save row cache1 in
  let '(second, cache3) := EventService.get_event after event_id cache2 in
  (first, second, cache3).

End scenario.
End scenario.

(** ** Vocabulary of the specification *)

(** The notions the specification uses to state its properties: what a
    UUID string is and which UUID it denotes, which decimals are below
    zero, and what a rendering with two fractional digits looks like.
    They are written from the specification's words, and the program is
    compared with them below. *)

Module spec.

Fixpoint all_chars (p : ascii -> bool) (s : string) : bool :=
  match s with
  | EmptyString => true
  | String c s' => p c && all_chars p s'
  end.

Definition is_digit (c : ascii) : bool := char_in c "0123456789".

Definition is_hex_digit (c : ascii) : bool := char_in c "0123456789abcdefABCDEF".

(** The value of a hexadecimal digit. *)
Definition hex_value (c : ascii) : Z :=
  match c with
  | "0" => 0 | "1" => 1 | "2" => 2 | "3" => 3 | "4" => 4
  | "5" => 5 | "6" => 6 | "7" => 7 | "8" => 8 | "9" => 9
  | "a" | "A" => 10 | "b" | "B" => 11 | "c" | "C" => 12
  | "d" | "D" => 13 | "e" | "E" => 14 | "f" | "F" => 15
  | _ => 0
  end%char.

Definition hyphen : ascii := "-"%char.

(** A string follows a pattern when it has a hexadecimal digit where
    the pattern says [true] and a hyphen where it says [false]. *)
Fixpoint follows (pattern : list bool) (s : string) : bool :=
  match pattern, s with
  | [], EmptyString => true
  | b :: pattern', String c s' =>
      (if b then is_hex_digit c else Ascii.eqb c hyphen) && follows pattern' s'
  | _, _ => false
  end.

(** The textual form of a UUID: groups of 8, 4, 4, 4 and 12
    hexadecimal digits separated by hyphens. *)
Definition uuid_pattern : list bool :=
  repeat true 8 ++ [false] ++ repeat true 4 ++ [false] ++ repeat true 4
    ++ [false] ++ repeat true 4 ++ [false] ++ repeat true 12.

Definition valid_uuid_string (s : string) : bool := follows uuid_pattern s.

(** The number written by the hexadecimal digits of a string, read
    left to right; other characters are passed over. *)
Fixpoint hex_number (acc : Z) (s : string) : Z :=
  match s with
  | EmptyString => acc
  | String c s' =>
      hex_number (if is_hex_digit c then acc * 16 + hex_value c else acc) s'
  end.

(** The UUID denoted by a UUID string. *)
Definition uuid_denoted (s : string) : uuid.UUID :=
  uuid.mk_UUID (hex_number 0 s).




Definition upper_char (c : ascii) : ascii :=
  let n := N_of_ascii c in
  if ((97 <=? n) && (n <=? 122))%N then ascii_of_N (n - 32) else c.

(** [s.upper()] *)
Fixpoint upper (s : string) : string :=
  match s with
  | EmptyString => EmptyString
  | String c s' => String (upper_char c) (upper s')
  end.

Definition lower_char (c : ascii) : ascii :=
  let n := N_of_ascii c in
  if ((65 <=? n) && (n <=? 90))%N then ascii_of_N (n + 32) else c.

(** [s.lower()] *)
Fixpoint lower (s : string) : string :=
  match s with
  | EmptyString => EmptyString
  | String c s' => String (lower_char c) (lower s')
  end.

Definition in_braces (s : string) : string := "{" +:+ s +:+ "}".

Definition as_urn (s : string) : string := "urn:uuid:" +:+ s.

(** The order of decimals against zero, by value: a finite decimal is
    below zero when its sign is set and its coefficient is not zero. *)
Definition below_zero (d : decimal.Decimal) : bool :=
  match d with
  | decimal.Finite sign coeff _ => sign && negb (coeff =? 0)%N
  | decimal.Infinity sign => sign
  | decimal.NaN _ _ _ => false
  end.

Definition at_least_zero (d : decimal.Decimal) : bool :=
  match d with
  | decimal.Finite sign coeff _ => negb sign || (coeff =? 0)%N
  | decimal.Infinity sign => negb sign
  | decimal.NaN _ _ _ => false
  end.

Definition is_finite (d : decimal.Decimal) : bool :=
  match d with
  | decimal.Finite _ _ _ => true
  | _ => false
  end.

(** The text after the first decimal point. *)
Fixpoint after_point (s : string) : option string :=
  match s with
  | EmptyString => None
  | String c s' => if Ascii.eqb c "." then Some s' else after_point s'
  end.

(** A rendering has exactly two fractional digits when two digits,
    and nothing else, follow its decimal point. *)
Definition has_two_fractional_digits (s : string) : bool :=
  match after_point s with
  | Some f => (String.length f =? 2)%nat && all_chars is_digit f
  | None => false
  end.

(** Auxiliary character classes and counts used in the proofs. *)
Definition uuid_char (c : ascii) : bool := is_hex_digit c || Ascii.eqb c hyphen.

Definition not_u (c : ascii) : bool := negb (Ascii.eqb "u" c).

Definition not_brace (c : ascii) : bool := negb (char_in c "{}").

Definition count_true (pattern : list bool) : nat :=
  List.length (List.filter (fun b => b) pattern).

(** The value of a finite decimal, as a rational number. *)
Definition signed_coeff (sign : bool) (coeff : N) : Z :=
  if sign then - Z.of_N coeff else Z.of_N coeff.

Definition value (sign : bool) (coeff : N) (e : Z) : Q :=
  (inject_Z (signed_coeff sign coeff) * 10 ^ e)%Q.

(** The object [cls(event_id)] is expected to be, for a subclass whose
    [__init__] stores [code], [message] and then [event_id]. *)
Definition built (cls : error_class) (c : ErrorCode) (m event_id : string) : instance :=
  mk_instance cls [event_id]
    (<["event_id"%string := VStr event_id]>
       (<["message"%string := VStr m]> (<["code"%string := VCode c]> ∅))).

End spec.
Import spec.

(** ** Readings of renderings and of accepted strings *)

Module observe.

Definition is_nan (d : decimal.Decimal) : bool :=
  match d with
  | decimal.NaN _ _ _ => true
  | _ => false
  end.

(** The value of a decimal digit. *)
Definition decimal_digit (c : ascii) : option N :=
  if is_digit c then Some (N_of_ascii c - 48)%N else None.

(** The number written by the decimal digits of a text, read left to
    right; the sign and the point are passed over.  For a rendering with
    two fractional digits this is the amount in hundredths. *)
Fixpoint read_decimal (acc : N) (s : string) : N :=
  match s with
  | EmptyString => acc
  | String c s' =>
      read_decimal
        (match decimal_digit c with
         | Some v => acc * 10 + v
         | None => acc
         end)%N s'
  end.

Definition hundredths (s : string) : N := read_decimal 0 s.

Definition starts_with_minus (s : string) : bool :=
  match s with
  | String c _ => Ascii.eqb c minus_sign
  | EmptyString => false
  end.

(** The characters [int(s, 16)] can accept somewhere in its argument:
    hexadecimal digits, the underscore, a sign, the [x] of the base
    prefix and white space. *)
Definition int_char (c : ascii) : bool :=
  is_hex_digit c || Ascii.eqb c underscore || Ascii.eqb c plus_sign
  || Ascii.eqb c minus_sign || Ascii.eqb c "x" || Ascii.eqb c "X"
  || int_space c.

Definition as_upper_urn (s : string) : string := "URN:UUID:" +:+ s.

End observe.
Import observe.

(** * Properties *)

(** ** Strings *)

Section string_lemmas.

Lemma append_empty_r (s : string) : s +:+ EmptyString = s.
Proof. induction s as [|c s IH]; simpl; [reflexivity | now rewrite IH]. Qed.

Lemma append_assoc (a b c : string) : (a +:+ b) +:+ c = a +:+ (b +:+ c).
Proof. induction a as [|x a IH]; simpl; [reflexivity | now rewrite IH]. Qed.

Lemma length_append (a b : string) :
  String.length (a +:+ b) = (String.length a + String.length b)%nat.
Proof. induction a as [|x a IH]; simpl; [reflexivity | now rewrite IH]. Qed.

Lemma all_chars_append p (a b : string) :
  all_chars p (a +:+ b) = all_chars p a && all_chars p b.
Proof.
  induction a as [|x a IH]; simpl; [reflexivity |].
  now rewrite IH, andb_assoc.
Qed.

Lemma all_chars_weaken (p q : ascii -> bool) (s : string) :
  (forall c, p c = true -> q c = true) ->
  all_chars p s = true -> all_chars q s = true.
Proof.
  intros Hpq. induction s as [|c s IH]; simpl; [reflexivity |].
  intros [Hc Hs]%andb_prop. rewrite (Hpq _ Hc). simpl. auto.
Qed.

(** A string holding no character equal to the first one of [old]
    has no occurrence of [old]. *)
Lemma replace_from_absent (c0 : ascii) (old' new s : string) :
  all_chars (fun c => negb (Ascii.eqb c0 c)) s = true ->
  replace_from (String c0 old') new O s = s.
Proof.
  induction s as [|c s IH]; [reflexivity |].
  intros [Hc Hs]%andb_prop.
  cbn [replace_from startswith].
  apply negb_true_iff in Hc. rewrite Hc. cbn [andb].
  now rewrite IH.
Qed.

Lemma lstrip_absent (chars s : string) :
  all_chars (fun c => negb (char_in c chars)) s = true ->
  str_lstrip chars s = s.
Proof.
  destruct s as [|c s]; [reflexivity |].
  intros [Hc _]%andb_prop. apply negb_true_iff in Hc.
  cbn [str_lstrip]. now rewrite Hc.
Qed.

Lemma lstrip_cons_in (chars : string) (c : ascii) (s : string) :
  char_in c chars = true -> str_lstrip chars (String c s) = str_lstrip chars s.
Proof. intros H. cbn [str_lstrip]. now rewrite H. Qed.

Lemma lstrip_cons_out (chars : string) (c : ascii) (s : string) :
  char_in c chars = false -> str_lstrip chars (String c s) = String c s.
Proof. intros H. cbn [str_lstrip]. now rewrite H. Qed.

Lemma rstrip_absent (chars s : string) :
  all_chars (fun c => negb (char_in c chars)) s = true ->
  str_rstrip chars s = s.
Proof.
  induction s as [|c s IH]; [reflexivity |].
  intros [Hc Hs]%andb_prop. apply negb_true_iff in Hc.
  cbn [str_rstrip]. rewrite (IH Hs), Hc. now destruct s.
Qed.

Lemma strip_absent (chars s : string) :
  all_chars (fun c => negb (char_in c chars)) s = true ->
  str_strip chars s = s.
Proof.
  intros H. unfold str_strip. rewrite (lstrip_absent _ _ H).
  now apply rstrip_absent.
Qed.

(** Trailing characters of the set are stripped on the right. *)
Lemma rstrip_append_chars (chars s t : string) :
  all_chars (fun c => char_in c chars) t = true ->
  str_rstrip chars (s +:+ t) = str_rstrip chars s.
Proof.
  intros Ht. induction s as [|c s IH].
  - cbn [String.append]. induction t as [|d t IHt]; [reflexivity |].
    apply andb_prop in Ht as [Hd Ht].
    cbn [str_rstrip]. rewrite (IHt Ht). cbn [str_rstrip]. now rewrite Hd.
  - cbn [String.append str_rstrip]. now rewrite IH.
Qed.

End string_lemmas.

(** ** Characters *)

Section char_lemmas.

(** What the parser makes of a hexadecimal digit: it is a digit of
    base 16 with the value the specification gives it, and it is none
    of the characters the parser treats specially. *)
Lemma hex_digit_facts (c : ascii) :
  is_hex_digit c = true ->
  digit_value c = Some (hex_value c) /\
  (hex_value c <? 16) = true /\
  (0 <=? hex_value c) = true /\
  Ascii.eqb c underscore = false /\
  int_space c = false /\
  Ascii.eqb c plus_sign = false /\
  Ascii.eqb c minus_sign = false /\
  Ascii.eqb c "x" = false /\
  Ascii.eqb c "X" = false /\
  Ascii.eqb c hyphen = false /\
  Ascii.eqb c "." = false /\
  not_u c = true /\
  not_brace c = true.
Proof.
  destruct c as [b0 b1 b2 b3 b4 b5 b6 b7].
  destruct b0, b1, b2, b3, b4, b5, b6, b7; intros H;
    try discriminate H; repeat split; reflexivity.
Qed.

Lemma uuid_char_not_u (c : ascii) : uuid_char c = true -> not_u c = true.
Proof.
  unfold uuid_char. intros [H | H]%orb_prop.
  - now apply hex_digit_facts in H.
  - apply Ascii.eqb_eq in H. now subst c.
Qed.

Lemma uuid_char_not_brace (c : ascii) : uuid_char c = true -> not_brace c = true.
Proof.
  unfold uuid_char. intros [H | H]%orb_prop.
  - now apply hex_digit_facts in H.
  - apply Ascii.eqb_eq in H. now subst c.
Qed.

Lemma upper_char_hex (c : ascii) :
  is_hex_digit c = true ->
  is_hex_digit (upper_char c) = true /\ hex_value (upper_char c) = hex_value c.
Proof.
  destruct c as [b0 b1 b2 b3 b4 b5 b6 b7].
  destruct b0, b1, b2, b3, b4, b5, b6, b7; intros H;
    try discriminate H; split; reflexivity.
Qed.

Lemma digit_not_point (c : ascii) : is_digit c = true -> Ascii.eqb c "." = false.
Proof.
  destruct c as [b0 b1 b2 b3 b4 b5 b6 b7].
  destruct b0, b1, b2, b3, b4, b5, b6, b7; intros H;
    try discriminate H; reflexivity.
Qed.

Lemma lower_char_hex (c : ascii) :
  is_hex_digit c = true ->
  is_hex_digit (lower_char c) = true /\ hex_value (lower_char c) = hex_value c.
Proof.
  destruct c as [b0 b1 b2 b3 b4 b5 b6 b7].
  destruct b0, b1, b2, b3, b4, b5, b6, b7; intros H;
    try discriminate H; split; reflexivity.
Qed.

End char_lemmas.

(** ** [uuid.UUID] on hexadecimal text *)

Section uuid_lemmas.

Lemma follows_uuid_chars (pattern : list bool) (s : string) :
  follows pattern s = true -> all_chars uuid_char s = true.
Proof.
  revert s. induction pattern as [|b pattern IH]; intros [|c s] H;
    try discriminate H; [reflexivity |].
  cbn [follows] in H. apply andb_prop in H as [Hc Hs].
  cbn [all_chars]. rewrite (IH _ Hs), andb_true_r.
  unfold uuid_char. destruct b; rewrite Hc; [reflexivity | apply orb_true_r].
Qed.

(** Text made of hexadecimal digits and hyphens has no URN prefix and
    no braces: normalising it only removes the hyphens. *)
Lemma normalise_uuid_chars (s : string) :
  all_chars uuid_char s = true ->
  uuid.normalise s = replace_from "-" EmptyString O s.
Proof.
  intros H. unfold uuid.normalise, str_replace.
  assert (Hu : all_chars (fun c => negb (Ascii.eqb "u" c)) s = true)
    by (revert H; apply all_chars_weaken, uuid_char_not_u).
  rewrite (replace_from_absent _ _ _ _ Hu), (replace_from_absent _ _ _ _ Hu).
  rewrite strip_absent; [reflexivity |].
  revert H. apply all_chars_weaken, uuid_char_not_brace.
Qed.

(** Removing the hyphens of a string that follows a pattern leaves
    its hexadecimal digits, which write the same number. *)
Lemma follows_remove_hyphens (pattern : list bool) (s : string) :
  follows pattern s = true ->
  all_chars is_hex_digit (replace_from "-" EmptyString O s) = true /\
  String.length (replace_from "-" EmptyString O s) = count_true pattern /\
  forall acc, hex_number acc (replace_from "-" EmptyString O s) = hex_number acc s.
Proof.
  revert s. induction pattern as [|b pattern IH]; intros [|c s] H;
    try discriminate H; [repeat split |].
  cbn [follows] in H. apply andb_prop in H as [Hc Hs].
  destruct (IH _ Hs) as (Hhex & Hlen & Hnum).
  cbn [replace_from startswith]. destruct b.
  - destruct (hex_digit_facts _ Hc) as (_ & _ & _ & _ & _ & _ & _ & _ & _ & Hh & _).
    unfold hyphen in Hh. rewrite Ascii.eqb_sym in Hh. rewrite Hh. cbn [andb].
    cbn [all_chars String.length hex_number]. rewrite Hc, Hhex, Hlen.
    repeat split. intros acc. apply Hnum.
  - apply Ascii.eqb_eq in Hc. subst c. cbn.
    repeat split; [exact Hhex | exact Hlen | intros acc; apply Hnum].
Qed.

Lemma scan_digits_hex (h : string) (digits : nat) (acc : Z) :
  all_chars is_hex_digit h = true ->
  scan_digits 16 h false digits acc
  = Some (hex_number acc h, (digits + String.length h)%nat, EmptyString).
Proof.
  revert digits acc. induction h as [|c h IH]; intros digits acc H.
  - cbn. now rewrite Nat.add_0_r.
  - cbn [all_chars] in H. apply andb_prop in H as [Hc Hh].
    destruct (hex_digit_facts _ Hc) as (Hv & Hlt & _ & Hus & _).
    cbn [scan_digits hex_number String.length].
    rewrite Hus, Hv, Hlt, Hc, (IH _ _ Hh).
    now rewrite Nat.add_succ_r.
Qed.

Lemma hex_number_bounds (h : string) (acc : Z) :
  all_chars is_hex_digit h = true ->
  0 <= acc ->
  0 <= hex_number acc h < (acc + 1) * 16 ^ Z.of_nat (String.length h).
Proof.
  revert acc. induction h as [|c h IH]; intros acc H Hacc.
  - cbn. lia.
  - cbn [all_chars] in H. apply andb_prop in H as [Hc Hh].
    destruct (hex_digit_facts _ Hc) as (_ & Hlt & Hge & _).
    apply Z.ltb_lt in Hlt. apply Z.leb_le in Hge.
    cbn [hex_number String.length]. rewrite Hc.
    specialize (IH (acc * 16 + hex_value c) Hh ltac:(lia)).
    rewrite Nat2Z.inj_succ, Z.pow_succ_r by lia.
    assert (0 < 16 ^ Z.of_nat (String.length h)) by (apply Z.pow_pos_nonneg; lia).
    nia.
Qed.

(** [int(h, 16)] on a non-empty run of hexadecimal digits is the
    number the digits write. *)
Lemma int_base16_hex (h : string) :
  all_chars is_hex_digit h = true ->
  h <> EmptyString ->
  int_base16 h = Ok (hex_number 0 h).
Proof.
  intros H Hne. destruct h as [|c h]; [congruence |].
  pose proof H as Hall.
  cbn [all_chars] in H. apply andb_prop in H as [Hc Hh].
  destruct (hex_digit_facts _ Hc)
    as (_ & _ & _ & Hus & Hsp & Hplus & Hminus & _).
  unfold int_base16. cbn [skip_spaces]. rewrite Hsp.
  cbn [split_sign]. rewrite Hplus, Hminus.
  assert (Hpre : skip_base_prefix (String c h) = String c h).
  { destruct h as [|c1 h]; [reflexivity |].
    cbn [all_chars] in Hh. apply andb_prop in Hh as [Hc1 _].
    destruct (hex_digit_facts _ Hc1) as (_ & _ & _ & _ & _ & _ & _ & Hx & HX & _).
    cbn [skip_base_prefix]. rewrite Hx, HX. cbn [orb]. now rewrite andb_false_r. }
  rewrite Hpre. cbn [starts_with_underscore]. rewrite Hus.
  rewrite (scan_digits_hex _ _ _ Hall).
  cbn [String.length Nat.add skip_spaces]. f_equal. lia.
Qed.

(** A string whose normal form is 32 hexadecimal digits is read as the
    128-bit number they write. *)
Lemma UUID_of_hex_digits (s h : string) :
  uuid.normalise s = h ->
  all_chars is_hex_digit h = true ->
  String.length h = 32%nat ->
  uuid.UUID_of_hex s = Ok (uuid.mk_UUID (hex_number 0 h)).
Proof.
  intros Hn Hhex Hlen. unfold uuid.UUID_of_hex. rewrite Hn.
  unfold len. rewrite Hlen. cbn [Z.eqb negb Z.of_nat].
  change (Z.of_nat 32 =? 32) with true. cbn [negb].
  rewrite int_base16_hex; [| assumption | intros ->; discriminate Hlen].
  cbn [bind].
  pose proof (hex_number_bounds h 0 Hhex ltac:(lia)) as Hb.
  rewrite Hlen in Hb. change (Z.shiftl 1 128) with (16 ^ Z.of_nat 32).
  replace (0 <=? hex_number 0 h) with true by (symmetry; apply Z.leb_le; lia).
  replace (hex_number 0 h <? 16 ^ Z.of_nat 32) with true
    by (symmetry; apply Z.ltb_lt; lia).
  reflexivity.
Qed.

(** A valid UUID string is read as the UUID it denotes. *)
Lemma UUID_of_hex_valid (u : string) :
  valid_uuid_string u = true ->
  uuid.UUID_of_hex u = Ok (uuid_denoted u).
Proof.
  intros H. unfold valid_uuid_string in H.
  destruct (follows_remove_hyphens _ _ H) as (Hhex & Hlen & Hnum).
  pose proof (normalise_uuid_chars _ (follows_uuid_chars _ _ H)) as Hn.
  rewrite (UUID_of_hex_digits _ _ Hn Hhex Hlen).
  unfold uuid_denoted. now rewrite Hnum.
Qed.

End uuid_lemmas.

(** ** Other spellings of a UUID *)

Section spelling_lemmas.

Lemma follows_nonempty (s : string) :
  valid_uuid_string s = true -> exists c s', s = String c s'.
Proof. destruct s as [|c s']; [discriminate | eauto]. Qed.

(** Braces around a valid UUID string are stripped. *)
Lemma normalise_in_braces (u : string) :
  valid_uuid_string u = true ->
  uuid.normalise (in_braces u) = uuid.normalise u.
Proof.
  intros H. pose proof (follows_uuid_chars _ _ H) as Hchars.
  assert (Hu : all_chars (fun c => negb (Ascii.eqb "u" c)) u = true)
    by (revert Hchars; apply all_chars_weaken, uuid_char_not_u).
  assert (Hb : all_chars (fun c => negb (char_in c "{}")) u = true)
    by (revert Hchars; apply all_chars_weaken, uuid_char_not_brace).
  assert (Hu' : all_chars (fun c => negb (Ascii.eqb "u" c)) (in_braces u) = true).
  { unfold in_braces. rewrite !all_chars_append, Hu. reflexivity. }
  unfold uuid.normalise, str_replace.
  rewrite !(replace_from_absent _ _ _ _ Hu'), !(replace_from_absent _ _ _ _ Hu).
  f_equal. rewrite (strip_absent _ _ Hb).
  destruct (follows_nonempty _ H) as (c & u' & ->).
  cbn [all_chars] in Hb. apply andb_prop in Hb as [Hc Hb'].
  apply negb_true_iff in Hc.
  unfold str_strip, in_braces.
  change ("{" +:+ String c u' +:+ "}") with (String "{" (String c (u' +:+ "}"))).
  rewrite lstrip_cons_in by reflexivity.
  rewrite lstrip_cons_out by exact Hc.
  change (String c (u' +:+ "}")) with (String c u' +:+ "}").
  rewrite rstrip_append_chars by reflexivity.
  apply rstrip_absent. cbn [all_chars]. now rewrite Hc, Hb'.
Qed.

(** The URN prefix before a valid UUID string is removed. *)
Lemma normalise_as_urn (u : string) :
  valid_uuid_string u = true ->
  uuid.normalise (as_urn u) = uuid.normalise u.
Proof.
  intros H. pose proof (follows_uuid_chars _ _ H) as Hchars.
  assert (Hu : all_chars (fun c => negb (Ascii.eqb "u" c)) u = true)
    by (revert Hchars; apply all_chars_weaken, uuid_char_not_u).
  unfold uuid.normalise, str_replace, as_urn.
  rewrite !(replace_from_absent _ _ _ _ Hu).
  cbn. rewrite !(replace_from_absent _ _ _ _ Hu). reflexivity.
Qed.

(** Upper case keeps a string valid and keeps the UUID it denotes. *)
Lemma follows_upper (pattern : list bool) (s : string) :
  follows pattern s = true ->
  follows pattern (upper s) = true /\
  forall acc, hex_number acc (upper s) = hex_number acc s.
Proof.
  revert s. induction pattern as [|b pattern IH]; intros [|c s] H;
    try discriminate H; [split; reflexivity |].
  cbn [follows] in H. apply andb_prop in H as [Hc Hs].
  destruct (IH _ Hs) as [Hf Hn].
  cbn [upper follows hex_number]. rewrite Hf, andb_true_r. destruct b.
  - destruct (upper_char_hex _ Hc) as [Hh Hv].
    rewrite Hh, Hc, Hv. split; [reflexivity | intros acc; apply Hn].
  - apply Ascii.eqb_eq in Hc. subst c. split; [reflexivity |].
    intros acc. apply Hn.
Qed.

Lemma follows_lower (pattern : list bool) (s : string) :
  follows pattern s = true ->
  follows pattern (lower s) = true /\
  forall acc, hex_number acc (lower s) = hex_number acc s.
Proof.
  revert s. induction pattern as [|b pattern IH]; intros [|c s] H;
    try discriminate H; [split; reflexivity |].
  cbn [follows] in H. apply andb_prop in H as [Hc Hs].
  destruct (IH _ Hs) as [Hf Hn].
  cbn [lower follows hex_number]. rewrite Hf, andb_true_r. destruct b.
  - destruct (lower_char_hex _ Hc) as [Hh Hv].
    rewrite Hh, Hc, Hv. split; [reflexivity | intros acc; apply Hn].
  - apply Ascii.eqb_eq in Hc. subst c. split; [reflexivity |].
    intros acc. apply Hn.
Qed.

End spelling_lemmas.

(** ** Failures of [uuid.UUID] *)

Section uuid_failures.

Lemma int_base16_raises (s : string) (e : exception) :
  int_base16 s = Raise e -> e = invalid_literal s.
Proof.
  unfold int_base16.
  destruct (split_sign (skip_spaces s)) as [sign s2].
  destruct (starts_with_underscore (skip_base_prefix s2)); [congruence |].
  destruct (scan_digits 16 (skip_base_prefix s2) false 0 0) as [[[v digits] rest]|];
    [| congruence].
  destruct digits; [congruence |].
  destruct (skip_spaces rest); congruence.
Qed.

(** Every failure of [UUID(hex)] is a [ValueError]. *)
Lemma UUID_of_hex_raises (s : string) (e : exception) :
  uuid.UUID_of_hex s = Raise e -> exists msg, e = ValueError msg.
Proof.
  unfold uuid.UUID_of_hex.
  destruct (negb (len (uuid.normalise s) =? 32)); [intros [= <-]; eauto |].
  destruct (int_base16 (uuid.normalise s)) as [n | e'] eqn:Hint; cbn [bind].
  - destruct (negb ((0 <=? n) && (n <? Z.shiftl 1 128))); [intros [= <-]; eauto |].
    discriminate.
  - intros [= <-]. apply int_base16_raises in Hint. subst e'.
    unfold invalid_literal. eauto.
Qed.


End uuid_failures.

(** ** The strings [int(s, 16)] reads *)

Section literal_lemmas.

Lemma digit_base16_is_hex (c : ascii) :
  match digit_value c with
  | Some v => if v <? 16 then is_hex_digit c = true else True
  | None => True
  end.
Proof.
  destruct c as [b0 b1 b2 b3 b4 b5 b6 b7].
  destruct b0, b1, b2, b3, b4, b5, b6, b7; vm_compute; (exact I || reflexivity).
Qed.






















End literal_lemmas.

(** ** Rendering of decimals *)

Section decimal_lemmas.
Import decimal.

Lemma string_of_uint_digits (d : Decimal.uint) :
  all_chars is_digit (NilEmpty.string_of_uint d) = true.
Proof. induction d; cbn [NilEmpty.string_of_uint all_chars]; auto. Qed.

Lemma digits_of_digits (n : N) : all_chars is_digit (digits_of n) = true.
Proof. apply string_of_uint_digits. Qed.

Lemma all_chars_zeros (n : nat) : all_chars is_digit (zeros n) = true.
Proof. induction n; cbn [zeros all_chars]; auto. Qed.

Lemma length_zeros (n : nat) : String.length (zeros n) = n.
Proof. induction n; cbn [zeros String.length]; auto. Qed.

Lemma all_chars_take p (n : nat) (s : string) :
  all_chars p s = true -> all_chars p (take n s) = true.
Proof.
  revert s. induction n as [|n IH]; intros [|c s] H; try reflexivity.
  cbn [all_chars] in H. apply andb_prop in H as [Hc Hs].
  cbn [take all_chars]. now rewrite Hc, IH.
Qed.

Lemma all_chars_drop p (n : nat) (s : string) :
  all_chars p s = true -> all_chars p (drop n s) = true.
Proof.
  revert s. induction n as [|n IH]; intros [|c s] H; try assumption.
  cbn [all_chars] in H. apply andb_prop in H as [Hc Hs].
  cbn [drop]. now apply IH.
Qed.

Lemma length_drop (n : nat) (s : string) :
  String.length (drop n s) = (String.length s - n)%nat.
Proof.
  revert s. induction n as [|n IH]; intros [|c s]; cbn [drop String.length];
    try reflexivity. apply IH.
Qed.

(** The text after the point of [p.f], when [p] holds no point. *)
Lemma after_point_append (p f : string) :
  all_chars (fun c => negb (Ascii.eqb c ".")) p = true ->
  after_point (p +:+ String "." f) = Some f.
Proof.
  induction p as [|c p IH]; intros H; [reflexivity |].
  cbn [all_chars] in H. apply andb_prop in H as [Hc Hp].
  apply negb_true_iff in Hc.
  cbn [String.append after_point]. rewrite Hc. auto.
Qed.

Lemma digits_no_point (s : string) :
  all_chars is_digit s = true ->
  all_chars (fun c => negb (Ascii.eqb c ".")) s = true.
Proof.
  apply all_chars_weaken. intros c Hc.
  now rewrite (digit_not_point _ Hc).
Qed.

Lemma sign_text_no_point (sign : bool) :
  all_chars (fun c => negb (Ascii.eqb c ".")) (sign_text sign) = true.
Proof. now destruct sign. Qed.

(** A finite decimal printed with the format [.2f] has exactly two
    fractional digits, whatever the rounding mode. *)
Lemma fixed_text_two_digits (ctx : Context) (sign : bool) (coeff : N) (e : Z) :
  has_two_fractional_digits (fixed_text ctx 2 (Finite sign coeff e)) = true.
Proof.
  cbn [fixed_text].
  set (c := rescale_coeff sign coeff e (- Z.of_nat 2) (rounding ctx)).
  pose proof (digits_of_digits c) as Hd.
  set (int_ := digits_of c) in *.
  assert (Hgoal : forall intpart fracpart,
    all_chars is_digit intpart = true ->
    all_chars is_digit fracpart = true ->
    String.length fracpart = 2%nat ->
    has_two_fractional_digits
      (sign_text sign +:+ intpart +:+
         match fracpart with
         | EmptyString => EmptyString
         | String _ _ => "." +:+ fracpart
         end) = true).
  { intros i f Hi Hf Hlen.
    destruct f as [|a f]; [discriminate Hlen |].
    unfold has_two_fractional_digits.
    change ("." +:+ String a f) with (String "." (String a f)).
    rewrite <- append_assoc, after_point_append.
    - now rewrite Hlen, Hf.
    - rewrite all_chars_append, sign_text_no_point.
      now apply digits_no_point. }
  destruct (String.length int_ <? 2)%nat eqn:Hn.
  - apply Nat.ltb_lt in Hn. apply Hgoal; [reflexivity | |].
    + now rewrite all_chars_append, all_chars_zeros.
    + rewrite length_append, length_zeros. lia.
  - apply Nat.ltb_ge in Hn. apply Hgoal.
    + pose proof (all_chars_take is_digit (String.length int_ - 2) int_ Hd) as Ht.
      now destruct (take (String.length int_ - 2) int_).
    + now apply all_chars_drop.
    + rewrite length_drop. lia.
Qed.

(** [format] returns the fixed-point text whenever the padded
    coefficient is within the limit of the library and of the memory. *)
Lemma format_f_within (ctx : Context) (memory : N) (precision : nat) (d : Decimal) :
  padded_digits precision d <= MAX_PREC + 1 ->
  padded_digits precision d <= Z.of_N memory ->
  format_f ctx memory precision d = Ok (fixed_text ctx precision d).
Proof.
  intros Hlim Hmem. unfold format_f.
  replace (MAX_PREC + 1 <? padded_digits precision d) with false
    by (symmetry; apply Z.ltb_ge; lia).
  now replace (Z.of_N memory <? padded_digits precision d) with false
    by (symmetry; apply Z.ltb_ge; lia).
Qed.

(** Nothing is padded when digits are dropped, or when there are none. *)
Lemma format_f_unpadded (ctx : Context) (memory : N) (precision : nat) (d : Decimal) :
  padded_digits precision d = 0 ->
  format_f ctx memory precision d = Ok (fixed_text ctx precision d).
Proof.
  intros H0. apply format_f_within; rewrite H0; [unfold MAX_PREC |]; lia.
Qed.

Lemma padded_digits_dropping (precision : nat) (sign : bool) (coeff : N) (e : Z) :
  e < - Z.of_nat precision -> padded_digits precision (Finite sign coeff e) = 0.
Proof.
  intros He. unfold padded_digits. destruct (coeff =? 0)%N; [reflexivity |].
  now replace (- Z.of_nat precision <=? e) with false
    by (symmetry; apply Z.leb_gt; lia).
Qed.

End decimal_lemmas.

(** ** The event service and the signal receivers *)

Section service_claims.
Context {S : Type} `{EventStore S}.

(** C1. [EventService.get_event] is documented to raise
    [InvalidEventIdError] for a malformed id, [EventNotFoundError] for an
    absent event, and to return the event otherwise.  Its body is
    [raise NotImplementedError]: for every store, every id and every
    cache the call raises [NotImplementedError], an exception that
    carries no error code, and leaves the cache as it was. *)
Theorem get_event_not_implemented (self : EventService.t S)
    (event_id : string) (cache : Cache) :
  EventService.get_event self event_id cache = (Raise NotImplementedError, cache) /\
  errors.code_of_exception NotImplementedError = None.
Proof. split; reflexivity. Qed.

(** C2. [EventService.get_sessions_for_event] is documented to raise
    [EventNotFoundError] when the event does not exist and to return the
    sessions (possibly none) otherwise.  Its body is
    [raise NotImplementedError]: the call raises it whatever
    [event_exists] would answer, without consulting the store. *)
Theorem get_sessions_for_event_not_implemented (self : EventService.t S)
    (event_id : string) (cache : Cache) :
  EventService.get_sessions_for_event self event_id cache
  = (Raise NotImplementedError, cache) /\
  errors.code_of_exception NotImplementedError = None.
Proof. split; reflexivity. Qed.

(** C5. [EventService.list_events] is documented to return all events.
    Its body is [raise NotImplementedError]: the call raises it on
    every store, the empty one included, and returns no sequence. *)
Theorem list_events_not_implemented (self : EventService.t S) (cache : Cache) :
  EventService.list_events self cache = (Raise NotImplementedError, cache).
Proof. reflexivity. Qed.

(** C4. In the scenario "read, update and signal, read again" neither
    read returns an event: both raise [NotImplementedError], the first
    read populates no cache entry and the signal evicts none, so the
    cache at the end is the cache at the start. *)
Theorem read_update_read_not_implemented (before after : EventService.t S)
    (event_id : string) (row : signals.EventRow) (cache : Cache) :
  scenario.read_update_read before after event_id row cache
  = (Raise NotImplementedError, Raise NotImplementedError, cache).
Proof. reflexivity. Qed.

End service_claims.

(** C3. The receiver [invalidate_event_cache] is documented to
    invalidate caches when an event is saved or deleted.  Its body is
    [pass]: after either signal the cache is the one before it, so an
    entry under ["events:list"] (or under any other key) is still
    there. *)
Theorem invalidate_event_cache_keeps_cache (sig : signals.signal)
    (instance : signals.EventRow) (cache : Cache) (entry : cached) :
  signals.invalidate_event_cache sig instance cache = cache /\
  signals.invalidate_event_cache sig instance (<["events:list"%string := entry]> cache)
    !! "events:list"%string = Some entry.
Proof.
  split; [reflexivity |].
  unfold signals.invalidate_event_cache. apply lookup_insert_eq.
Qed.

(** The same calls on concrete inputs: a malformed id, and an in-memory
    store that holds no event. *)
Example get_event_malformed_id :
  is_ok (EventId.from_string "not-a-uuid") = false /\
  EventService.get_event (EventService.mk (mk_InMemoryEventStore [] []))
    "not-a-uuid" ∅ = (Raise NotImplementedError, ∅).
Proof. split; reflexivity. Qed.

Example list_events_empty_store :
  list_events (mk_InMemoryEventStore [] []) = Ok [] /\
  EventService.list_events (EventService.mk (mk_InMemoryEventStore [] [])) ∅
  = (Raise NotImplementedError, ∅).
Proof. split; reflexivity. Qed.

Example get_sessions_absent_event :
  (exists i, EventId.from_string "12345678-1234-1234-1234-123456789abc" = Ok i /\
             event_exists (mk_InMemoryEventStore [] []) i = Ok false) /\
  EventService.get_sessions_for_event
    (EventService.mk (mk_InMemoryEventStore [] []))
    "12345678-1234-1234-1234-123456789abc" ∅
  = (Raise NotImplementedError, ∅).
Proof.
  split; [| reflexivity].
  eexists. split; [vm_compute; reflexivity | reflexivity].
Qed.

(** ** [Money] *)

Section money_claims.
Import decimal.

(** The order against zero used in the statements is the order of the
    values. *)
Lemma value_negative (sign : bool) (coeff : N) (e : Z) :
  (value sign coeff e < 0)%Q <-> signed_coeff sign coeff < 0.
Proof.
  unfold value.
  assert (Hp : (0 < 10 ^ e)%Q) by (apply Qpower_0_lt; reflexivity).
  split.
  - intros H.
    destruct (Z.lt_ge_cases (signed_coeff sign coeff) 0) as [|Hge]; [assumption |].
    exfalso. apply (Qlt_not_le _ _ H).
    apply Qmult_le_0_compat; [| now apply Qlt_le_weak].
    change 0%Q with (inject_Z 0). now rewrite <- Zle_Qle.
  - intros H. rewrite (Zlt_Qlt _ 0) in H.
    apply (Qmult_lt_compat_r _ _ _ Hp) in H.
    now rewrite Qmult_0_l in H.
Qed.

Lemma below_zero_value (sign : bool) (coeff : N) (e : Z) :
  below_zero (Finite sign coeff e) = true <-> (value sign coeff e < 0)%Q.
Proof.
  rewrite value_negative. unfold signed_coeff. cbn [below_zero].
  rewrite andb_true_iff, negb_true_iff, N.eqb_neq.
  destruct sign; split; intros; try lia; intuition (try discriminate; lia).
Qed.

Lemma at_least_zero_value (sign : bool) (coeff : N) (e : Z) :
  at_least_zero (Finite sign coeff e) = true <-> (0 <= value sign coeff e)%Q.
Proof.
  split.
  - intros H. apply Qnot_lt_le. intros Hlt. apply below_zero_value in Hlt.
    cbn [at_least_zero below_zero] in H, Hlt.
    destruct sign, (coeff =? 0)%N; discriminate.
  - intros H. destruct (at_least_zero (Finite sign coeff e)) eqn:Hge; [reflexivity |].
    exfalso. apply (Qle_not_lt _ _ H). apply below_zero_value.
    cbn [at_least_zero below_zero] in *.
    destruct sign, (coeff =? 0)%N; (discriminate || reflexivity).
Qed.

Lemma Money_new_negative (ctx : Context) (amount : Decimal) :
  below_zero amount = true ->
  Money.new ctx amount = Raise (ValueError "Money amount cannot be negative").
Proof.
  destruct amount as [sign coeff e | sign | sign sig payload]; cbn [below_zero];
    intros Hneg; try discriminate Hneg.
  - apply andb_prop in Hneg as [-> Hc]. apply negb_true_iff in Hc.
    unfold Money.new, Money.__post_init__. cbn [Money.amount lt_zero cmp_zero bind].
    now rewrite Hc.
  - subst sign. reflexivity.
Qed.

Lemma Money_new_not_negative (ctx : Context) (amount : Decimal) :
  is_finite amount = true ->
  at_least_zero amount = true ->
  Money.new ctx amount = Ok (Money.mk amount).
Proof.
  destruct amount as [sign coeff e | sign | sign sig payload]; cbn [is_finite];
    intros Hfin Hge; try discriminate Hfin.
  cbn [at_least_zero] in Hge.
  unfold Money.new, Money.__post_init__. cbn [Money.amount lt_zero cmp_zero bind].
  destruct (coeff =? 0)%N; [reflexivity |].
  rewrite orb_false_r in Hge. apply negb_true_iff in Hge. now subst sign.
Qed.

(** C6, as amended.  For every decimal amount below zero (minus
    infinity included) [Money(amount)] raises [ValueError].  For every
    finite amount that is at least zero the construction succeeds, and
    its rendering has exactly two fractional digits, under every
    rounding mode of the context, whenever [format] returns: it does
    unless the coefficient, padded with zeros up to the exponent -2,
    would have more than [MAX_PREC + 1] digits ([ValueError]) or more
    digits than there is memory for ([MemoryError]).  [Money(3)] renders
    as ["3.00"]. *)
Theorem Money_construction_and_rendering (ctx : Context) (memory : N)
    (amount : Decimal) :
  (below_zero amount = true ->
   Money.new ctx amount = Raise (ValueError "Money amount cannot be negative")) /\
  (is_finite amount = true -> at_least_zero amount = true ->
   Money.new ctx amount = Ok (Money.mk amount) /\
   (padded_digits 2 amount <= MAX_PREC + 1 ->
    padded_digits 2 amount <= Z.of_N memory ->
    exists text,
      Money.__str__ ctx memory (Money.mk amount) = Ok text /\
      has_two_fractional_digits text = true) /\
   (MAX_PREC + 1 < padded_digits 2 amount ->
    Money.__str__ ctx memory (Money.mk amount)
    = Raise (ValueError "format specification exceeds internal limits of _decimal")) /\
   (padded_digits 2 amount <= MAX_PREC + 1 ->
    Z.of_N memory < padded_digits 2 amount ->
    Money.__str__ ctx memory (Money.mk amount) = Raise MemoryError)) /\
  ((3 <= memory)%N ->
   Money.__str__ ctx memory (Money.mk (of_int 3)) = Ok "3.00"%string).
Proof.
  split; [apply Money_new_negative |]. split.
  - intros Hfin Hge. split; [now apply Money_new_not_negative |].
    unfold Money.__str__, format_f. cbn [Money.amount].
    split; [| split].
    + intros Hlim Hmem.
      replace (MAX_PREC + 1 <? padded_digits 2 amount) with false
        by (symmetry; apply Z.ltb_ge; lia).
      replace (Z.of_N memory <? padded_digits 2 amount) with false
        by (symmetry; apply Z.ltb_ge; lia).
      eexists. split; [reflexivity |].
      destruct amount as [sign coeff e | sign | sign sig payload];
        try discriminate Hfin.
      apply fixed_text_two_digits.
    + intros Hlim.
      now replace (MAX_PREC + 1 <? padded_digits 2 amount) with true
        by (symmetry; apply Z.ltb_lt; lia).
    + intros Hlim Hmem.
      replace (MAX_PREC + 1 <? padded_digits 2 amount) with false
        by (symmetry; apply Z.ltb_ge; lia).
      now replace (Z.of_N memory <? padded_digits 2 amount) with true
        by (symmetry; apply Z.ltb_lt; lia).
  - intros Hmem. unfold Money.__str__, format_f. cbn [Money.amount].
    change (padded_digits 2 (of_int 3)) with 3.
    change (MAX_PREC + 1 <? 3) with false. cbv iota.
    now replace (Z.of_N memory <? 3) with false by (symmetry; apply Z.ltb_ge; lia).
Qed.

(** The amended C6 at [-1.50], at [12.5] and at [3], with memory for a
    hundred digits. *)
Lemma Money_construction_and_rendering_witness :
  Money.new DefaultContext (Finite true 150 (-2))
  = Raise (ValueError "Money amount cannot be negative") /\
  (exists text,
     Money.__str__ DefaultContext 100 (Money.mk (Finite false 125 (-1))) = Ok text /\
     has_two_fractional_digits text = true) /\
  Money.__str__ DefaultContext 100 (Money.mk (of_int 3)) = Ok "3.00"%string.
Proof.
  split.
  - apply (Money_construction_and_rendering DefaultContext 100 (Finite true 150 (-2))).
    reflexivity.
  - split.
    + apply (Money_construction_and_rendering DefaultContext 100 (Finite false 125 (-1)));
        (reflexivity || (vm_compute; discriminate)).
    + apply (Money_construction_and_rendering DefaultContext 100 (of_int 3)).
      vm_compute. discriminate.
Defined.

(** C6 as stated fails at plus infinity: it is at least zero and
    [Money] accepts it, but it renders as ["Infinity"], with no
    fractional digit. *)
Lemma Money_infinity_counterexample :
  at_least_zero (Infinity false) = true /\
  Money.new DefaultContext (Infinity false) = Ok (Money.mk (Infinity false)) /\
  Money.__str__ DefaultContext 100 (Money.mk (Infinity false)) = Ok "Infinity"%string /\
  has_two_fractional_digits "Infinity" = false.
Proof. repeat split. Qed.

End money_claims.

(** ** [EventId.from_string] *)




(** C10.  For every valid UUID string, the string itself, its upper
    and lower case forms, the string in braces and the string behind
    the prefix [urn:uuid:] are all accepted and give the same
    identifier, the one wrapping the UUID denoted; the last two are
    spellings different from the string, so [from_string] is not
    injective. *)
Theorem from_string_spellings (u : string) :
  valid_uuid_string u = true ->
  EventId.from_string u = Ok (EventId.mk (uuid_denoted u)) /\
  EventId.from_string (lower u) = Ok (EventId.mk (uuid_denoted u)) /\
  EventId.from_string (upper u) = Ok (EventId.mk (uuid_denoted u)) /\
  EventId.from_string (in_braces u) = Ok (EventId.mk (uuid_denoted u)) /\
  EventId.from_string (as_urn u) = Ok (EventId.mk (uuid_denoted u)) /\
  in_braces u <> u /\ as_urn u <> u.
Proof.
  intros Hv. pose proof (UUID_of_hex_valid _ Hv) as Hu.
  destruct (follows_lower _ _ Hv) as [Hlv Hln].
  destruct (follows_upper _ _ Hv) as [Huv Hun].
  unfold EventId.from_string. repeat split.
  - now rewrite Hu.
  - rewrite (UUID_of_hex_valid _ Hlv). unfold uuid_denoted. now rewrite Hln.
  - rewrite (UUID_of_hex_valid _ Huv). unfold uuid_denoted. now rewrite Hun.
  - unfold uuid.UUID_of_hex in *. rewrite (normalise_in_braces _ Hv). now rewrite Hu.
  - unfold uuid.UUID_of_hex in *. rewrite (normalise_as_urn _ Hv). now rewrite Hu.
  - intros Heq. apply (f_equal String.length) in Heq.
    unfold in_braces in Heq. rewrite !length_append in Heq. cbn in Heq. lia.
  - intros Heq. apply (f_equal String.length) in Heq.
    unfold as_urn in Heq. rewrite !length_append in Heq. cbn in Heq. lia.
Qed.

(** C10 at a canonical string with letters. *)
Lemma from_string_spellings_witness :
  valid_uuid_string "12345678-1234-1234-1234-123456789abc" = true /\
  EventId.from_string "12345678-1234-1234-1234-123456789ABC"
  = EventId.from_string "12345678-1234-1234-1234-123456789abc" /\
  EventId.from_string "{12345678-1234-1234-1234-123456789abc}"
  = EventId.from_string "12345678-1234-1234-1234-123456789abc" /\
  EventId.from_string "urn:uuid:12345678-1234-1234-1234-123456789abc"
  = EventId.from_string "12345678-1234-1234-1234-123456789abc".
Proof.
  pose proof (from_string_spellings "12345678-1234-1234-1234-123456789abc" eq_refl)
    as (Hc & _ & Hupper & Hbraces & Hurn & _).
  split; [reflexivity |].
  rewrite Hc. split; [exact Hupper |]. split; [exact Hbraces | exact Hurn].
Defined.

(** ** The error taxonomy *)

Section error_claims.
Import errors.

Lemma EventNotFoundError_built (event_id : string) :
  EventNotFoundError event_id
  = Ok (built EventNotFoundError_cls EVENT_NOT_FOUND "Event not found" event_id).
Proof. reflexivity. Qed.

Lemma SessionNotFoundError_built (event_id : string) :
  SessionNotFoundError event_id
  = Ok (built SessionNotFoundError_cls SESSION_NOT_FOUND
          "Sessions not found for event" event_id).
Proof. reflexivity. Qed.

Lemma built_code cls c m event_id : code (built cls c m event_id) = Some c.
Proof.
  unfold code, built. cbn [attrs].
  rewrite lookup_insert_ne by discriminate.
  rewrite lookup_insert_ne by discriminate.
  now rewrite lookup_insert_eq.
Qed.

Lemma built_message cls c m event_id : message (built cls c m event_id) = Some m.
Proof.
  unfold message, built. cbn [attrs].
  rewrite lookup_insert_ne by discriminate.
  now rewrite lookup_insert_eq.
Qed.

Lemma built_event_id cls c m event_id :
  attrs (built cls c m event_id) !! "event_id"%string = Some (VStr event_id).
Proof. unfold built. cbn [attrs]. apply lookup_insert_eq. Qed.

(** C8.  Whatever the two event ids, [EventNotFoundError] builds errors
    with the code [EVENT_NOT_FOUND] and the same message, the constant
    text ["Event not found"]; the text [__str__] gives is the same
    constant too.  The id is kept apart, in the attribute [event_id]. *)
Theorem EventNotFoundError_message_constant (id1 id2 : string) :
  exists e1 e2,
    EventNotFoundError id1 = Ok e1 /\
    EventNotFoundError id2 = Ok e2 /\
    code e1 = Some EVENT_NOT_FOUND /\
    code e2 = Some EVENT_NOT_FOUND /\
    message e1 = Some "Event not found"%string /\
    message e2 = message e1 /\
    DomainError__str__ e1 = Some "EVENT_NOT_FOUND: Event not found"%string /\
    DomainError__str__ e2 = DomainError__str__ e1.
Proof.
  exists (built EventNotFoundError_cls EVENT_NOT_FOUND "Event not found" id1),
         (built EventNotFoundError_cls EVENT_NOT_FOUND "Event not found" id2).
  unfold DomainError__str__. rewrite !built_code, !built_message.
  repeat split.
Qed.

(** C9, as amended.  For every string [event_id],
    [EventNotFoundError(event_id)] and [SessionNotFoundError(event_id)]
    are built without an exception; each carries its code, its constant
    message, the attribute [event_id] and the arguments [(event_id,)];
    [InvalidEventIdError()] is built too, with its code and message.
    On each of the three objects an assignment to [code] or to [message]
    raises [FrozenInstanceError], whatever the value.  On an object of
    class [DomainError] itself every assignment raises
    [FrozenInstanceError], with the name quoted as [repr] does.  And
    [FrozenInstanceError] is raised in no other case: only when the
    object's class is [DomainError] or the name is one of the two
    fields. *)
Theorem error_subclasses_construct (event_id : string) :
  (exists e, EventNotFoundError event_id = Ok e /\
     type_of e = EventNotFoundError_cls /\
     code e = Some EVENT_NOT_FOUND /\
     message e = Some "Event not found"%string /\
     attrs e !! "event_id"%string = Some (VStr event_id) /\
     args e = [event_id] /\
     (forall v, DomainError__setattr__ e "message" v
        = Raise (FrozenInstanceError "cannot assign to field 'message'")) /\
     (forall v, DomainError__setattr__ e "code" v
        = Raise (FrozenInstanceError "cannot assign to field 'code'"))) /\
  (exists e, SessionNotFoundError event_id = Ok e /\
     type_of e = SessionNotFoundError_cls /\
     code e = Some SESSION_NOT_FOUND /\
     message e = Some "Sessions not found for event"%string /\
     attrs e !! "event_id"%string = Some (VStr event_id) /\
     args e = [event_id] /\
     (forall v, DomainError__setattr__ e "message" v
        = Raise (FrozenInstanceError "cannot assign to field 'message'")) /\
     (forall v, DomainError__setattr__ e "code" v
        = Raise (FrozenInstanceError "cannot assign to field 'code'"))) /\
  (exists e, InvalidEventIdError = Ok e /\
     type_of e = InvalidEventIdError_cls /\
     code e = Some INVALID_EVENT_ID /\
     message e = Some "Invalid event ID format"%string /\
     args e = [] /\
     (forall v, DomainError__setattr__ e "message" v
        = Raise (FrozenInstanceError "cannot assign to field 'message'")) /\
     (forall v, DomainError__setattr__ e "code" v
        = Raise (FrozenInstanceError "cannot assign to field 'code'"))) /\
  (forall args attributes name v,
     DomainError__setattr__ (mk_instance DomainError_cls args attributes) name v
     = Raise (FrozenInstanceError ("cannot assign to field " +:+ repr name))) /\
  (forall self name v msg,
     DomainError__setattr__ self name v = Raise (FrozenInstanceError msg) ->
     type_of self = DomainError_cls \/ name = "code"%string \/ name = "message"%string).
Proof.
  split; [| split; [| split; [| split]]].
  - exists (built EventNotFoundError_cls EVENT_NOT_FOUND "Event not found" event_id).
    rewrite built_code, built_message, built_event_id. repeat split.
  - exists (built SessionNotFoundError_cls SESSION_NOT_FOUND
              "Sessions not found for event" event_id).
    rewrite built_code, built_message, built_event_id. repeat split.
  - exists (mk_instance InvalidEventIdError_cls []
              (<["message"%string := VStr "Invalid event ID format"]>
                 (<["code"%string := VCode INVALID_EVENT_ID]> ∅))).
    split; [reflexivity |]. split; [reflexivity |].
    split.
    { unfold code. cbn [attrs].
      rewrite lookup_insert_ne by discriminate. now rewrite lookup_insert_eq. }
    split.
    { unfold message. cbn [attrs]. now rewrite lookup_insert_eq. }
    repeat split.
  - reflexivity.
  - intros self name v msg. unfold DomainError__setattr__.
    destruct (error_class_eqb (type_of self) DomainError_cls) eqn:Hcls.
    + intros _. left. now destruct (type_of self).
    + cbn [orb]. destruct (is_field name) eqn:Hf.
      * intros _. right. unfold is_field, DomainError_fields in Hf.
        cbn [existsb] in Hf. rewrite orb_false_r in Hf.
        apply orb_prop in Hf as [Hf | Hf]; apply String.eqb_eq in Hf; auto.
      * unfold object_setattr.
        repeat match goal with
               | |- context [String.eqb name ?k] => destruct (String.eqb name k)
               end;
          try destruct v; discriminate.
Qed.

(** The amended C9 at the id ["evt-1"], and the refusal of an assignment
    on an object of class [DomainError]. *)
Lemma error_subclasses_construct_witness :
  (exists e, EventNotFoundError "evt-1" = Ok e /\
     message e = Some "Event not found"%string /\
     args e = ["evt-1"%string]) /\
  (type_of (mk_instance DomainError_cls [] ∅) = DomainError_cls \/
   "note"%string = "code"%string \/ "note"%string = "message"%string).
Proof.
  pose proof (error_subclasses_construct "evt-1") as (He & _ & _ & Hfrozen & Honly).
  split.
  - destruct He as (e & Hbuilt & _ & _ & Hm & _ & Hargs & _).
    exists e. split; [exact Hbuilt |]. split; [exact Hm | exact Hargs].
  - apply (Honly (mk_instance DomainError_cls [] ∅) "note"%string (VStr "seen")
             ("cannot assign to field " +:+ repr "note")).
    apply Hfrozen.
Defined.

(** C9 as stated fails at the id ["evt-1"]: both constructors return an
    object, they do not raise [FrozenInstanceError]. *)
Lemma frozen_subclass_counterexample :
  EventNotFoundError "evt-1"
  = Ok (built EventNotFoundError_cls EVENT_NOT_FOUND "Event not found" "evt-1") /\
  SessionNotFoundError "evt-1"
  = Ok (built SessionNotFoundError_cls SESSION_NOT_FOUND
          "Sessions not found for event" "evt-1") /\
  is_ok (EventNotFoundError "evt-1") = true /\
  is_ok (SessionNotFoundError "evt-1") = true.
Proof. repeat split. Qed.

End error_claims.

(** * Further properties of the code *)

(** ** [Capacity] and the invariant of [Money] *)

Section value_object_properties.
Import decimal.

(** X1.  [Capacity(value)] raises [ValueError] exactly for the values
    below zero; every capacity that was constructed holds the value it
    was given, and that value is not negative.  Zero is accepted. *)
Theorem Capacity_new_nonnegative (v : Z) :
  (v < 0 -> Capacity.new v = Raise (ValueError "Capacity cannot be negative")) /\
  (0 <= v -> Capacity.new v = Ok (Capacity.mk v)) /\
  (forall c, Capacity.new v = Ok c -> Capacity.value c = v /\ 0 <= v).
Proof.
  unfold Capacity.new, Capacity.__post_init__. cbn [Capacity.value].
  destruct (v <? 0) eqn:Hv; cbn [bind].
  - apply Z.ltb_lt in Hv. split; [reflexivity |]. split; [lia | discriminate].
  - apply Z.ltb_ge in Hv. split; [lia |]. split; [reflexivity |].
    intros c [= <-]. split; [reflexivity | exact Hv].
Qed.

(** X2.  Whatever the context, a [Money] that was constructed holds the
    amount it was given and that amount is not below zero; under a
    context that traps [InvalidOperation], as the default one does, it
    is no NaN either. *)
Theorem Money_new_invariant (ctx : Context) (amount : Decimal) (m : Money.t) :
  Money.new ctx amount = Ok m ->
  Money.amount m = amount /\
  below_zero amount = false /\
  (trap_InvalidOperation ctx = true -> is_nan amount = false).
Proof.
  unfold Money.new, Money.__post_init__. cbn [Money.amount].
  destruct amount as [sign coeff e | sign | sign sig payload];
    cbn [lt_zero cmp_zero bind below_zero is_nan].
  - destruct (coeff =? 0)%N; cbn [negb andb].
    + intros [= <-]. rewrite andb_false_r. auto.
    + destruct sign; [discriminate |]. intros [= <-]. auto.
  - destruct sign; [discriminate |]. intros [= <-]. auto.
  - destruct (trap_InvalidOperation ctx); cbn [bind]; [discriminate |].
    intros [= <-]. repeat split. discriminate.
Qed.

Lemma Money_new_invariant_witness :
  Money.amount (Money.mk (Finite false 1999 (-2))) = Finite false 1999 (-2) /\
  below_zero (Finite false 1999 (-2)) = false /\
  (trap_InvalidOperation DefaultContext = true ->
   is_nan (Finite false 1999 (-2)) = false).
Proof.
  apply (Money_new_invariant DefaultContext (Finite false 1999 (-2))).
  reflexivity.
Defined.


End value_object_properties.

(** ** What the rendering of [Money] says *)

Section rendering_properties.
Import decimal.

Lemma read_uint_acc (d : Decimal.uint) (acc : positive) :
  read_decimal (Npos acc) (NilEmpty.string_of_uint d) = Npos (Pos.of_uint_acc d acc).
Proof.
  revert acc. induction d as [|d IH|d IH|d IH|d IH|d IH|d IH|d IH|d IH|d IH|d IH];
    intros acc; cbn [NilEmpty.string_of_uint read_decimal Pos.of_uint_acc];
    [reflexivity | ..];
    match goal with
    | |- context [decimal_digit ?c] =>
        let x := eval vm_compute in (decimal_digit c) in
        change (decimal_digit c) with x
    end;
    rewrite <- IH; f_equal; lia.
Qed.

Lemma read_uint (d : Decimal.uint) :
  read_decimal 0 (NilEmpty.string_of_uint d) = Pos.of_uint d.
Proof.
  induction d as [|d IH|d IH|d IH|d IH|d IH|d IH|d IH|d IH|d IH|d IH];
    cbn [NilEmpty.string_of_uint read_decimal Pos.of_uint];
    [reflexivity | exact IH | ..];
    match goal with
    | |- context [decimal_digit ?c] =>
        let x := eval vm_compute in (decimal_digit c) in
        change (decimal_digit c) with x
    end;
    apply read_uint_acc.
Qed.

(** Reading the digits of a number gives the number back. *)
Lemma read_digits_of (n : N) : read_decimal 0 (digits_of n) = n.
Proof.
  unfold digits_of. rewrite read_uint. apply DecimalN.Unsigned.of_to.
Qed.

Lemma read_decimal_append (a b : string) (acc : N) :
  read_decimal acc (a +:+ b) = read_decimal (read_decimal acc a) b.
Proof.
  revert acc. induction a as [|c a IH]; intros acc; [reflexivity |].
  cbn [String.append read_decimal]. apply IH.
Qed.

Lemma read_decimal_zeros (n : nat) : read_decimal 0 (zeros n) = 0%N.
Proof. induction n as [|n IH]; [reflexivity | exact IH]. Qed.

Lemma take_drop (k : nat) (s : string) : take k s +:+ drop k s = s.
Proof.
  revert s. induction k as [|k IH]; intros [|c s]; try reflexivity.
  cbn [take drop String.append]. now rewrite IH.
Qed.

Lemma read_decimal_sign (sign : bool) (t : string) :
  read_decimal 0 (sign_text sign +:+ t) = read_decimal 0 t.
Proof. now destruct sign. Qed.

Lemma read_decimal_point (acc : N) (t : string) :
  read_decimal acc (String "." t) = read_decimal acc t.
Proof. reflexivity. Qed.

(** The hundredths read off the rendering of a finite decimal are the
    coefficient of the decimal rescaled to two places. *)
Lemma hundredths_fixed_text (ctx : Context) (sign : bool) (coeff : N) (e : Z) :
  hundredths (fixed_text ctx 2 (Finite sign coeff e))
  = rescale_coeff sign coeff e (-2) (rounding ctx).
Proof.
  unfold hundredths. cbn [fixed_text]. change (- Z.of_nat 2) with (-2).
  set (c := rescale_coeff sign coeff e (-2) (rounding ctx)).
  set (int_ := digits_of c).
  transitivity (read_decimal 0 int_); [| apply read_digits_of].
  assert (Hgoal : forall intpart fracpart,
    fracpart <> EmptyString ->
    read_decimal 0 (intpart +:+ fracpart) = read_decimal 0 int_ ->
    read_decimal 0
      (sign_text sign +:+ intpart +:+
         match fracpart with
         | EmptyString => EmptyString
         | String _ _ => "." +:+ fracpart
         end) = read_decimal 0 int_).
  { intros i f Hf Hr. destruct f as [|a f]; [congruence |].
    rewrite read_decimal_sign, read_decimal_append.
    change ("." +:+ String a f) with (String "." (String a f)).
    rewrite read_decimal_point. now rewrite <- read_decimal_append. }
  destruct (String.length int_ <? 2)%nat eqn:Hn.
  - apply Nat.ltb_lt in Hn. apply Hgoal.
    + destruct (2 - String.length int_)%nat eqn:Hz; [lia | discriminate].
    + change ("0" +:+ zeros (2 - String.length int_) +:+ int_)
        with (zeros (S (2 - String.length int_)) +:+ int_).
      now rewrite read_decimal_append, read_decimal_zeros.
  - apply Nat.ltb_ge in Hn. apply Hgoal.
    + intros Hd. apply (f_equal String.length) in Hd.
      rewrite length_drop in Hd. cbn [String.length] in Hd. lia.
    + destruct (take (String.length int_ - 2) int_) eqn:Ht.
      * rewrite <- (take_drop (String.length int_ - 2) int_) at 3.
        rewrite Ht. rewrite !read_decimal_append. reflexivity.
      * rewrite <- Ht. now rewrite take_drop.
Qed.

(** X4.  A finite amount with at most two fractional digits (an
    exponent of -2 or more) whose padded coefficient is within the limit
    of the library and of the memory is rendered, and exactly, whatever
    the rounding mode of the context: the hundredths read off the
    rendering are the coefficient scaled to the exponent -2. *)
Theorem Money_str_exact (ctx : Context) (memory : N) (sign : bool) (coeff : N)
    (e : Z) :
  -2 <= e ->
  padded_digits 2 (Finite sign coeff e) <= MAX_PREC + 1 ->
  padded_digits 2 (Finite sign coeff e) <= Z.of_N memory ->
  exists text,
    Money.__str__ ctx memory (Money.mk (Finite sign coeff e)) = Ok text /\
    hundredths text = (coeff * 10 ^ Z.to_N (e + 2))%N.
Proof.
  intros He Hlim Hmem. exists (fixed_text ctx 2 (Finite sign coeff e)).
  split; [now apply format_f_within |].
  rewrite hundredths_fixed_text. unfold rescale_coeff.
  destruct (coeff =? 0)%N eqn:Hc.
  - apply N.eqb_eq in Hc. now subst coeff.
  - replace (-2 <=? e) with true by (symmetry; apply Z.leb_le; lia).
    replace (e - -2) with (e + 2) by lia. reflexivity.
Qed.

Lemma Money_str_exact_witness :
  exists text,
    Money.__str__ DefaultContext 100 (Money.mk (Finite false 125 (-1))) = Ok text /\
    hundredths text = (125 * 10 ^ Z.to_N (-1 + 2))%N.
Proof.
  apply (Money_str_exact DefaultContext 100 false 125 (-1));
    [lia | vm_compute; discriminate | vm_compute; discriminate].
Defined.

(** X5.  A finite amount with more than two fractional digits is
    rounded to a neighbouring hundredth: under every rounding mode the
    rendering differs from the amount by less than one hundredth, and
    under the default mode, round half even, by at most half of one.
    With [k] the number of digits dropped, the amounts are compared
    after scaling by [10^k]. *)
Theorem Money_str_rounding (ctx : Context) (memory : N) (sign : bool) (coeff : N)
    (e : Z) :
  e < -2 ->
  exists text,
    Money.__str__ ctx memory (Money.mk (Finite sign coeff e)) = Ok text /\
    let k := Z.to_N (-2 - e) in
    let h := hundredths text in
    (h * 10 ^ k < coeff + 10 ^ k /\ coeff < h * 10 ^ k + 10 ^ k)%N /\
    (rounding ctx = ROUND_HALF_EVEN ->
     (2 * (h * 10 ^ k) <= 2 * coeff + 10 ^ k /\
      2 * coeff <= 2 * (h * 10 ^ k) + 10 ^ k)%N).
Proof.
  intros He. exists (fixed_text ctx 2 (Finite sign coeff e)).
  split; [now apply format_f_unpadded, padded_digits_dropping |].
  intros k h. subst h.
  rewrite hundredths_fixed_text. unfold rescale_coeff.
  replace (-2 <=? e) with false by (symmetry; apply Z.leb_gt; lia).
  fold k. set (U := (10 ^ k)%N).
  assert (HU : (0 < U)%N).
  { unfold U. apply N.neq_0_lt_0, N.pow_nonzero. discriminate. }
  destruct (coeff =? 0)%N eqn:Hc.
  { apply N.eqb_eq in Hc. subst coeff. split; [lia | intros _; lia]. }
  pose proof (N.div_mod coeff U ltac:(lia)) as Hdm.
  pose proof (N.mod_lt coeff U ltac:(lia)) as Hr.
  set (q := (coeff / U)%N) in *. set (r := (coeff mod U)%N) in *.
  assert (Hq1 : ((q + 1) * U = U * q + U)%N) by lia.
  assert (Hq0 : (q * U = U * q)%N) by lia.
  unfold round_away. fold U.
  destruct (r =? 0)%N eqn:Hr0.
  { apply N.eqb_eq in Hr0. rewrite Hq0. split; [lia | intros _; lia]. }
  apply N.eqb_neq in Hr0.
  split.
  - destruct (match rounding ctx with
              | ROUND_DOWN => false
              | ROUND_HALF_UP => (U <=? 2 * r)%N
              | ROUND_HALF_EVEN => (U <? 2 * r)%N || (U =? 2 * r)%N && N.odd q
              | ROUND_CEILING => negb sign
              | ROUND_FLOOR => sign
              | ROUND_UP => true
              | ROUND_HALF_DOWN => (U <? 2 * r)%N
              | ROUND_05UP => (q mod 10 =? 0)%N || (q mod 10 =? 5)%N
              end); [rewrite Hq1 | rewrite Hq0]; lia.
  - intros ->.
    destruct ((U <? 2 * r)%N || (U =? 2 * r)%N && N.odd q) eqn:Haway.
    + rewrite Hq1. apply orb_prop in Haway as [Hlt | Heq].
      * apply N.ltb_lt in Hlt. lia.
      * apply andb_prop in Heq as [Heq _]. apply N.eqb_eq in Heq. lia.
    + rewrite Hq0. apply orb_false_elim in Haway as [Hlt _].
      apply N.ltb_ge in Hlt. lia.
Qed.

Lemma Money_str_rounding_witness :
  exists text,
    Money.__str__ DefaultContext 100 (Money.mk (Finite false 2675 (-3))) = Ok text /\
    let k := Z.to_N (-2 - -3) in
    let h := hundredths text in
    (h * 10 ^ k < 2675 + 10 ^ k /\ 2675 < h * 10 ^ k + 10 ^ k)%N /\
    (rounding DefaultContext = ROUND_HALF_EVEN ->
     (2 * (h * 10 ^ k) <= 2 * 2675 + 10 ^ k /\
      2 * 2675 <= 2 * (h * 10 ^ k) + 10 ^ k)%N).
Proof. apply (Money_str_rounding DefaultContext 100 false 2675 (-3)). lia. Defined.

End rendering_properties.

Section sign_properties.
Import decimal.

Lemma digit_not_minus (c : ascii) : is_digit c = true -> Ascii.eqb c minus_sign = false.
Proof.
  destruct c as [b0 b1 b2 b3 b4 b5 b6 b7].
  destruct b0, b1, b2, b3, b4, b5, b6, b7; intros H;
    try discriminate H; reflexivity.
Qed.

Lemma starts_with_minus_digits (i t : string) :
  i <> EmptyString -> all_chars is_digit i = true ->
  starts_with_minus (i +:+ t) = false.
Proof.
  destruct i as [|c i]; [congruence |]. intros _ [Hc _]%andb_prop.
  cbn [String.append starts_with_minus]. now apply digit_not_minus.
Qed.

(** X6.  A finite amount whose padded coefficient is within the limit
    of the library and of the memory is rendered, and its rendering
    starts with a minus sign exactly when the sign of the decimal is
    set.  Among the amounts [Money] accepts this is the negative zero,
    of any exponent, which is accepted (it is not below zero) and always
    renders as ["-0.00"]. *)
Theorem Money_str_minus_sign (ctx : Context) (memory : N) (sign : bool) (coeff : N)
    (e : Z) :
  (padded_digits 2 (Finite sign coeff e) <= MAX_PREC + 1 ->
   padded_digits 2 (Finite sign coeff e) <= Z.of_N memory ->
   exists text,
     Money.__str__ ctx memory (Money.mk (Finite sign coeff e)) = Ok text /\
     starts_with_minus text = sign) /\
  Money.new ctx (Finite true 0 e) = Ok (Money.mk (Finite true 0 e)) /\
  Money.__str__ ctx memory (Money.mk (Finite true 0 e)) = Ok "-0.00"%string.
Proof.
  split; [| split; [reflexivity |]].
  - intros Hlim Hmem. exists (fixed_text ctx 2 (Finite sign coeff e)).
    split; [now apply format_f_within |]. cbn [fixed_text].
    pose proof (digits_of_digits (rescale_coeff sign coeff e (- Z.of_nat 2) (rounding ctx)))
      as Hd.
    set (int_ := digits_of _) in *.
    destruct (String.length int_ <? 2)%nat; [now destruct sign |].
    destruct sign; [reflexivity |]. cbn [sign_text String.append].
    apply starts_with_minus_digits.
    + now destruct (take (String.length int_ - 2) int_).
    + pose proof (all_chars_take is_digit (String.length int_ - 2) int_ Hd) as Ht.
      now destruct (take (String.length int_ - 2) int_).
  - unfold Money.__str__. cbn [Money.amount].
    now rewrite format_f_unpadded.
Qed.

Lemma Money_str_minus_sign_witness :
  exists text,
    Money.__str__ DefaultContext 100 (Money.mk (Finite true 5 (-3))) = Ok text /\
    starts_with_minus text = true.
Proof.
  pose proof (Money_str_minus_sign DefaultContext 100 true 5 (-3)) as (Hsign & _).
  apply Hsign; vm_compute; discriminate.
Defined.

End sign_properties.

(** ** The other identifiers, and the strings [from_string] takes *)

Section identifier_properties.

(** X7.  [SessionId.from_string] and [TicketTypeId.from_string] read a
    string as [EventId.from_string] does: they succeed on the same
    strings, wrap the UUID a valid UUID string denotes, fail with a
    [ValueError] only, and whenever they succeed each of them wraps the
    UUID that [EventId.from_string] wraps. *)
Theorem other_ids_from_string (s : string) :
  (valid_uuid_string s = true ->
   SessionId.from_string s = Ok (SessionId.mk (uuid_denoted s)) /\
   TicketTypeId.from_string s = Ok (TicketTypeId.mk (uuid_denoted s))) /\
  (forall e, SessionId.from_string s = Raise e \/ TicketTypeId.from_string s = Raise e ->
     exists msg, e = ValueError msg) /\
  is_ok (SessionId.from_string s) = is_ok (EventId.from_string s) /\
  is_ok (TicketTypeId.from_string s) = is_ok (EventId.from_string s) /\
  (forall a b, SessionId.from_string s = Ok a -> EventId.from_string s = Ok b ->
     SessionId.value a = EventId.value b) /\
  (forall a b, TicketTypeId.from_string s = Ok a -> EventId.from_string s = Ok b ->
     TicketTypeId.value a = EventId.value b).
Proof.
  unfold SessionId.from_string, TicketTypeId.from_string, EventId.from_string.
  split; [| split; [| split; [| split; [| split]]]].
  - intros Hv. now rewrite (UUID_of_hex_valid _ Hv).
  - intros e He. destruct (uuid.UUID_of_hex s) as [u | e'] eqn:Hu; cbn [bind] in He.
    + destruct He; discriminate.
    + apply UUID_of_hex_raises in Hu. destruct He as [[= <-] | [= <-]]; exact Hu.
  - now destruct (uuid.UUID_of_hex s).
  - now destruct (uuid.UUID_of_hex s).
  - intros a b. destruct (uuid.UUID_of_hex s); cbn [bind]; [| discriminate].
    now intros [= <-] [= <-].
  - intros a b. destruct (uuid.UUID_of_hex s); cbn [bind]; [| discriminate].
    now intros [= <-] [= <-].
Qed.

Lemma normalise_hex (h : string) :
  all_chars is_hex_digit h = true -> uuid.normalise h = h.
Proof.
  intros H.
  rewrite normalise_uuid_chars.
  - apply replace_from_absent. revert H. apply all_chars_weaken. intros c Hc.
    destruct (hex_digit_facts _ Hc) as (_ & _ & _ & _ & _ & _ & _ & _ & _ & Hh & _).
    unfold hyphen in Hh. now rewrite Ascii.eqb_sym, Hh.
  - revert H. apply all_chars_weaken. intros c Hc. unfold uuid_char. now rewrite Hc.
Qed.

(** X8.  A bare run of 32 hexadecimal digits, with no hyphen, is
    accepted and read as the 128-bit number the digits write. *)
Theorem from_string_bare_hex (h : string) :
  all_chars is_hex_digit h = true ->
  String.length h = 32%nat ->
  EventId.from_string h = Ok (EventId.mk (uuid.mk_UUID (hex_number 0 h))).
Proof.
  intros Hhex Hlen. unfold EventId.from_string.
  now rewrite (UUID_of_hex_digits h h (normalise_hex _ Hhex) Hhex Hlen).
Qed.

Lemma from_string_bare_hex_witness :
  EventId.from_string "0123456789abcdefABCDEF0123456789"
  = Ok (EventId.mk (uuid.mk_UUID (hex_number 0 "0123456789abcdefABCDEF0123456789"))).
Proof. apply from_string_bare_hex; reflexivity. Defined.

Lemma int_char_hex (c : ascii) : is_hex_digit c = true -> int_char c = true.
Proof. intros H. unfold int_char. now rewrite H. Qed.

Lemma int_char_space (c : ascii) : int_space c = true -> int_char c = true.
Proof. intros H. unfold int_char. rewrite H. now rewrite !orb_true_r. Qed.

Lemma skip_spaces_chars (t : string) :
  all_chars int_char (skip_spaces t) = true -> all_chars int_char t = true.
Proof.
  induction t as [|c t IH]; [reflexivity |]. cbn [skip_spaces].
  destruct (int_space c) eqn:Hc; [| auto].
  intros H. cbn [all_chars]. now rewrite (int_char_space _ Hc), IH.
Qed.

Lemma skip_spaces_empty_chars (t : string) :
  skip_spaces t = EmptyString -> all_chars int_char t = true.
Proof.
  induction t as [|c t IH]; [reflexivity |]. cbn [skip_spaces].
  destruct (int_space c) eqn:Hc; [| discriminate].
  intros H. cbn [all_chars]. now rewrite (int_char_space _ Hc), IH.
Qed.

Lemma scan_digits_chars (t : string) (prev : bool) (digits : nat) (acc : Z)
    (v : Z) (n : nat) (rest : string) :
  scan_digits 16 t prev digits acc = Some (v, n, rest) ->
  all_chars int_char rest = true -> all_chars int_char t = true.
Proof.
  revert prev digits acc. induction t as [|c t IH]; intros prev digits acc.
  - cbn [scan_digits]. destruct prev; [discriminate |]. now intros [= _ _ <-].
  - cbn [scan_digits]. destruct (Ascii.eqb c underscore) eqn:Hus.
    + destruct prev; [discriminate |]. intros Hs Hr.
      cbn [all_chars]. rewrite (IH _ _ _ Hs Hr), andb_true_r.
      unfold int_char. rewrite Hus. now rewrite orb_true_r.
    + assert (Hstop : (if prev then None else Some (acc, digits, String c t))
                      = Some (v, n, rest) ->
                      all_chars int_char rest = true ->
                      all_chars int_char (String c t) = true).
      { destruct prev; [discriminate |]. now intros [= _ _ <-]. }
      pose proof (digit_base16_is_hex c) as Hd.
      destruct (digit_value c) as [d|]; [| exact Hstop].
      destruct (d <? 16); [| exact Hstop].
      intros Hs Hr. cbn [all_chars].
      now rewrite (int_char_hex _ Hd), (IH _ _ _ Hs Hr).
Qed.

Lemma split_sign_chars (t : string) :
  all_chars int_char (snd (split_sign t)) = true -> all_chars int_char t = true.
Proof.
  destruct t as [|c t]; [reflexivity |]. cbn [split_sign].
  destruct (Ascii.eqb c plus_sign) eqn:Hp; cbn [snd].
  - intros H. cbn [all_chars]. rewrite H, andb_true_r.
    unfold int_char. rewrite Hp. now rewrite !orb_true_r.
  - destruct (Ascii.eqb c minus_sign) eqn:Hm; cbn [snd]; [| auto].
    intros H. cbn [all_chars]. rewrite H, andb_true_r.
    unfold int_char. rewrite Hm. now rewrite !orb_true_r.
Qed.

Lemma skip_base_prefix_chars (t : string) :
  all_chars int_char (skip_base_prefix t) = true -> all_chars int_char t = true.
Proof.
  destruct t as [|c0 [|c1 r]]; try (intros H; exact H).
  cbn [skip_base_prefix].
  destruct (Ascii.eqb c0 "0" && (Ascii.eqb c1 "x" || Ascii.eqb c1 "X")) eqn:Hp;
    [| auto].
  apply andb_prop in Hp as [H0 Hx].
  apply Ascii.eqb_eq in H0. subst c0.
  assert (Hc1 : int_char c1 = true).
  { unfold int_char. apply orb_prop in Hx as [-> | ->]; now rewrite ?orb_true_r. }
  intros H. cbn [all_chars]. rewrite Hc1.
  change (int_char "0") with true. cbn [andb].
  destruct r as [|c2 r']; [reflexivity |].
  destruct (Ascii.eqb c2 underscore) eqn:Hus; [| exact H].
  cbn [all_chars]. rewrite H, andb_true_r.
  unfold int_char. rewrite Hus. now rewrite !orb_true_r.
Qed.

Lemma int_base16_chars (t : string) (v : Z) :
  int_base16 t = Ok v -> all_chars int_char t = true.
Proof.
  unfold int_base16. intros H.
  apply skip_spaces_chars, split_sign_chars.
  destruct (split_sign (skip_spaces t)) as [sign s2]. cbn [snd].
  apply skip_base_prefix_chars.
  destruct (starts_with_underscore (skip_base_prefix s2)); [discriminate |].
  destruct (scan_digits 16 (skip_base_prefix s2) false 0 0)
    as [[[w digits] rest]|] eqn:Hs; [| discriminate].
  destruct digits; [discriminate |].
  destruct (skip_spaces rest) eqn:Hr; [| discriminate].
  apply (scan_digits_chars _ _ _ _ _ _ _ Hs).
  now apply skip_spaces_empty_chars.
Qed.

(** X9.  Among the strings of code points below 256, whatever
    [from_string] accepts is written, once normalised, with hexadecimal
    digits, underscores, signs, the letter [x] and white space only: a
    string whose normal form holds any other character (a letter beyond
    [f], a colon, a dot) is rejected. *)
Theorem from_string_accepted_chars (s : string) (i : EventId.t) :
  EventId.from_string s = Ok i ->
  all_chars int_char (uuid.normalise s) = true.
Proof.
  unfold EventId.from_string, uuid.UUID_of_hex.
  destruct (negb (len (uuid.normalise s) =? 32)); [discriminate |].
  destruct (int_base16 (uuid.normalise s)) as [v | e] eqn:Hint; [| discriminate].
  intros _. now apply int_base16_chars in Hint.
Qed.

Lemma from_string_accepted_chars_witness :
  all_chars int_char (uuid.normalise "{12345678-1234-1234-1234-123456789abc}") = true.
Proof.
  apply (from_string_accepted_chars "{12345678-1234-1234-1234-123456789abc}"
           (EventId.mk (uuid.mk_UUID 24197857161011392786872332431161596604))).
  vm_compute. reflexivity.
Defined.

Lemma replace_from_prefix_absent (c0 : ascii) (old' new p t : string) :
  all_chars (fun c => negb (Ascii.eqb c0 c)) p = true ->
  replace_from (String c0 old') new O (p +:+ t)
  = p +:+ replace_from (String c0 old') new O t.
Proof.
  induction p as [|c p IH]; [reflexivity |].
  intros [Hc Hp]%andb_prop. apply negb_true_iff in Hc.
  cbn [String.append replace_from startswith]. rewrite Hc. cbn [andb].
  now rewrite IH.
Qed.

(** X10.  The URN prefix is recognised in lower case only: behind
    [URN:UUID:] a valid UUID string is rejected as badly formed,
    although [urn:uuid:] before the same string is accepted. *)
Theorem from_string_upper_urn_rejected (u : string) :
  valid_uuid_string u = true ->
  EventId.from_string (as_upper_urn u)
  = Raise (ValueError "badly formed hexadecimal UUID string") /\
  is_ok (EventId.from_string (as_urn u)) = true.
Proof.
  intros Hv. split.
  - pose proof (follows_uuid_chars _ _ Hv) as Hchars.
    destruct (follows_remove_hyphens _ _ Hv) as (_ & Hlen & _).
    assert (Hu0 : all_chars (fun c => negb (Ascii.eqb "u" c)) u = true)
      by (revert Hchars; apply all_chars_weaken, uuid_char_not_u).
    assert (Hb0 : all_chars (fun c => negb (char_in c "{}")) u = true)
      by (revert Hchars; apply all_chars_weaken, uuid_char_not_brace).
    assert (Hu : all_chars (fun c => negb (Ascii.eqb "u" c)) (as_upper_urn u) = true).
    { unfold as_upper_urn. rewrite all_chars_append, Hu0. reflexivity. }
    assert (Hb : all_chars (fun c => negb (char_in c "{}")) (as_upper_urn u) = true).
    { unfold as_upper_urn. rewrite all_chars_append, Hb0. reflexivity. }
    unfold EventId.from_string, uuid.UUID_of_hex, uuid.normalise, str_replace.
    rewrite !(replace_from_absent _ _ _ _ Hu), (strip_absent _ _ Hb).
    unfold as_upper_urn. rewrite replace_from_prefix_absent by reflexivity.
    unfold len. rewrite length_append, Hlen. reflexivity.
  - unfold EventId.from_string, uuid.UUID_of_hex.
    rewrite (normalise_as_urn _ Hv).
    pose proof (UUID_of_hex_valid _ Hv) as Hok.
    unfold uuid.UUID_of_hex in Hok. now rewrite Hok.
Qed.

Lemma from_string_upper_urn_rejected_witness :
  EventId.from_string "URN:UUID:12345678-1234-1234-1234-123456789abc"
  = Raise (ValueError "badly formed hexadecimal UUID string") /\
  is_ok (EventId.from_string "urn:uuid:12345678-1234-1234-1234-123456789abc") = true.
Proof.
  apply (from_string_upper_urn_rejected "12345678-1234-1234-1234-123456789abc").
  reflexivity.
Defined.

End identifier_properties.

(** ** The error objects *)

Section error_properties.
Import errors.

(** X11.  The message and the text of [SessionNotFoundError] do not
    depend on the event id either, and [InvalidEventIdError] has its own
    constant text; the three codes are written differently, so a caller
    can tell the errors apart by the code's value. *)
Theorem error_texts_constant (event_id : string) :
  (exists e, SessionNotFoundError event_id = Ok e /\
     message e = Some "Sessions not found for event"%string /\
     DomainError__str__ e
     = Some "SESSION_NOT_FOUND: Sessions not found for event"%string) /\
  (exists e, InvalidEventIdError = Ok e /\
     message e = Some "Invalid event ID format"%string /\
     DomainError__str__ e = Some "INVALID_EVENT_ID: Invalid event ID format"%string) /\
  (forall c1 c2, ErrorCode_value c1 = ErrorCode_value c2 -> c1 = c2).
Proof.
  split; [| split].
  - exists (built SessionNotFoundError_cls SESSION_NOT_FOUND
              "Sessions not found for event" event_id).
    unfold DomainError__str__. rewrite built_code, built_message. repeat split.
  - exists (mk_instance InvalidEventIdError_cls []
              (<["message"%string := VStr "Invalid event ID format"]>
                 (<["code"%string := VCode INVALID_EVENT_ID]> ∅))).
    split; [reflexivity |].
    unfold DomainError__str__, code, message. cbn [attrs].
    rewrite lookup_insert_eq, lookup_insert_ne by discriminate.
    rewrite lookup_insert_eq. split; reflexivity.
  - intros [] []; (reflexivity || discriminate).
Qed.




End error_properties.
